(** * Verification of cosign's claim verification pipeline

    Shallow embedding of [pkg/cosign/verify.go]: [VerifySignature],
    [validSignatures], [digestAndClaims], [correctAnnotations],
    [verifyClaims] and the orchestrator [Verify].

    Go values are modelled as follows.
    - [string] is a Go string, [list Byte.byte] a [[]byte].
    - An [error] is represented by the text of [err.Error()]; a Go value of
      type [error] that may be [nil] is an [option error].
    - A [map[string]string] is an [option (gmap string string)]: [None] is
      the nil map, and indexing ([index]) yields the zero value [""] for an
      absent key, as Go does.
    - A slice that may be [nil] in a result position is an
      [option (list _)].
    - Calls made by the two loops are recorded in a trace ([Traced]), so that
      statements about which function is invoked on which item can be made. *)

From Stdlib Require Import ZArith Ascii String DecimalString.
From stdpp Require Import gmap strings list fin_maps.

Local Open Scope Z_scope.

(** ** Go primitives *)

Definition error : Type := string.

(** The line feed character and the one-character string ["\n"]. *)
Definition LFc : ascii := "010"%char.
Definition LF : string := String LFc "".

Module GoStrings.
(** [strings.Join(elems, sep)]. *)
Fixpoint Join (elems : list string) (sep : string) : string :=
  match elems with
  | [] => ""
  | e :: es =>
      match es with
      | [] => e
      | _ :: _ => e +:+ sep +:+ Join es sep
      end
  end.
End GoStrings.

Module strconv.
(** [strconv.FormatInt(i, 10)]. *)
Definition FormatInt (i : Z) : string := NilZero.string_of_int (Z.to_int i).
End strconv.

Module base64.
(** [base64.CorruptInputError] is an [int64] offset; this is its [Error]
    method. *)
Definition CorruptInputError_Error (e : Z) : error :=
  "illegal base64 data at input byte " +:+ strconv.FormatInt e.
End base64.

(** [map[string]string] and the index expression [m[k]]. *)
Abbreviation GoMap := (option (gmap string string)).

Definition index (m : GoMap) (k : string) : string :=
  default "" (m ≫= (.!! k)).

(** The comma-ok form [v, ok := m[k]]: [Some v] when [k] is a key of [m]. *)
Definition entry (m : GoMap) (k : string) : option string :=
  m ≫= (.!! k).

(** ** Types of go-containerregistry used by the pipeline *)

Module v1.
(** [v1.Hash] and its [String] method, ["%s:%s"] of algorithm and hex. *)
Record Hash := { Algorithm : string; Hex : string }.

Definition Hash_String (h : Hash) : string :=
  Algorithm h +:+ ":" +:+ Hex h.

(** [v1.Descriptor], restricted to the fields the pipeline reads. *)
Record Descriptor := {
  MediaType : string;
  Digest : Hash;
  Annotations : GoMap
}.
End v1.

Module types.
Definition OCIManifestSchema1 : string :=
  "application/vnd.oci.image.manifest.v1+json".
End types.

(** ** Types of package cosign declared outside verify.go *)

(** Modelled from the spec: the declaration of [SignedPayload] is not in
    verify.go; section 3 of the specification gives it a payload byte
    sequence and a base64 signature text, and verify.go reads the fields
    [Base64Signature] and [Payload]. *)
Record SignedPayload := {
  Base64Signature : string;
  Payload : list Byte.byte
}.

Global Instance byte_eq_dec : EqDecision Byte.byte := Byte.byte_eq_dec.

Global Instance SignedPayload_eq_dec : EqDecision SignedPayload.
Proof. solve_decision. Defined.

(** Modelled from the spec: the declaration of [SimpleSigning] is not in
    verify.go; section 4.2 of the specification describes the nested
    critical, image, docker-manifest-digest field and the optional mapping,
    which are the fields [digestAndClaims] reads. *)
Record Image := { DockerManifestDigest : string }.
Record Critical := { Critical_Image : Image }.
Record SimpleSigning := {
  SimpleSigning_Critical : Critical;
  Optional : GoMap
}.

(** ** External collaborators

    Library and registry functions the pipeline calls. They are kept
    abstract: every theorem below holds for all of them. *)
Class Collaborators := {
  (** [name.Reference] *)
  Reference : Type;
  (** [FetchSignatures(ref)]: the candidates and the image descriptor, or an
      error. *)
  FetchSignatures : Reference → (list SignedPayload * v1.Descriptor) + error;
  (** [ed25519.Verify(publicKey, message, sig)] *)
  ed25519_Verify : list Byte.byte → list Byte.byte → list Byte.byte → bool;
  (** [base64.StdEncoding.DecodeString(s)]: the decoded bytes, or the offset
      of a [CorruptInputError]. *)
  DecodeString : string → list Byte.byte + Z;
  (** [json.Unmarshal(data, &d)] for a zero [v1.Descriptor]. *)
  Unmarshal_Descriptor : list Byte.byte → v1.Descriptor + error;
  (** [json.Unmarshal(data, &ss)] for a zero [SimpleSigning]. *)
  Unmarshal_SimpleSigning : list Byte.byte → SimpleSigning + error;
  (** [fmt.Sprintf("%v", m)] for a [map[string]string]. *)
  Sprint_map : GoMap → string
}.

(** ** Call traces *)

Inductive call :=
  | CallVerifySignature (base64sig : string) (payload : list Byte.byte)
  | CallDigestAndClaims (desc : v1.Descriptor) (sp : SignedPayload)
  | CallCorrectAnnotations (wanted have : GoMap).

Definition Traced (A : Type) : Type := A * list call.

Global Instance Traced_ret : MRet Traced := λ A a, (a, []).
Global Instance Traced_bind : MBind Traced := λ A B f m,
  let '(a, t1) := m in let '(b, t2) := f a in (b, t1 ++ t2).

(** [invoke c a]: the call [c] is made and returns [a]. *)
Definition invoke {A} (c : call) (a : A) : Traced A := (a, [c]).

Definition result {A} (m : Traced A) : A := m.1.
Definition calls {A} (m : Traced A) : list call := m.2.

(** ** verify.go *)

Section verify.
Context {env : Collaborators}.

Definition VerifySignature (pubkey : list Byte.byte) (base64sig : string)
    (payload : list Byte.byte) : option error :=
  match DecodeString base64sig with
  | inr e => Some (base64.CorruptInputError_Error e)
  | inl signature =>
      if negb (ed25519_Verify pubkey payload signature)
      then Some "unable to verify signature"
      else None
  end.

(** The [for _, sp := range signatures] loop of [validSignatures], with its
    two accumulators. *)
Fixpoint validSignatures_loop (pubKey : list Byte.byte)
    (signatures validSignatures : list SignedPayload)
    (validationErrs : list string)
    : Traced (list SignedPayload * list string) :=
  match signatures with
  | [] => mret (validSignatures, validationErrs)
  | sp :: signatures =>
      err ← invoke (CallVerifySignature (Base64Signature sp) (Payload sp))
              (VerifySignature pubKey (Base64Signature sp) (Payload sp));
      match err with
      | Some e =>
          validSignatures_loop pubKey signatures validSignatures
            (validationErrs ++ [e])
      | None =>
          validSignatures_loop pubKey signatures (validSignatures ++ [sp])
            validationErrs
      end
  end.

Definition validSignatures (pubKey : list Byte.byte)
    (signatures : list SignedPayload)
    : Traced (option (list SignedPayload) * option error) :=
  '(validSignatures, validationErrs) ←
    validSignatures_loop pubKey signatures [] [];
  if decide (length validSignatures = 0%nat)
  then mret (None, Some ("no matching signatures:" +:+ LF +:+
                         GoStrings.Join validationErrs (LF +:+ "  ")))
  else mret (Some validSignatures, None).

Definition digestAndClaims (desc : v1.Descriptor) (sp : SignedPayload)
    : string * GoMap * option error :=
  if decide (v1.MediaType desc = types.OCIManifestSchema1) then
    match Unmarshal_Descriptor (Payload sp) with
    | inr err => ("", None, Some err)
    | inl d => (v1.Hash_String (v1.Digest d), v1.Annotations d, None)
    end
  else if decide (v1.MediaType desc =
                  "application/vnd.dev.cosign.simplesigning.v1+json") then
    match Unmarshal_SimpleSigning (Payload sp) with
    | inr err => ("", None, Some err)
    | inl ss =>
        (DockerManifestDigest (Critical_Image (SimpleSigning_Critical ss)),
         Optional ss, None)
    end
  else
    ("", None,
     Some ("unexpected mediaType for " +:+ v1.Hash_String (v1.Digest desc)
           +:+ ": " +:+ v1.MediaType desc)).

(** The body of [correctAnnotations] over the entries of [wanted] in the
    order the [range] visits them. *)
Fixpoint correctAnnotations_range (entries : list (string * string))
    (have : GoMap) : bool :=
  match entries with
  | [] => true
  | (k, v) :: entries =>
      if decide (index have k ≠ v) then false
      else correctAnnotations_range entries have
  end.

(** Ranging over a nil map visits nothing. *)
Definition range (m : GoMap) : list (string * string) :=
  match m with
  | None => []
  | Some m => map_to_list m
  end.

Definition correctAnnotations (wanted have : GoMap) : bool :=
  correctAnnotations_range (range wanted) have.

(** The loop of [verifyClaims]. An extraction error is appended and the
    iteration goes on to the digest comparison: there is no [continue]
    after the first [append]. *)
Fixpoint verifyClaims_loop (desc : v1.Descriptor) (annotations : GoMap)
    (signatures : list SignedPayload) (checkClaimErrs : list string)
    (verifiedPayloads : list SignedPayload)
    : Traced (list SignedPayload * list string) :=
  match signatures with
  | [] => mret (verifiedPayloads, checkClaimErrs)
  | sp :: signatures =>
      '(foundDigest, foundAnnotations, err) ←
        invoke (CallDigestAndClaims desc sp) (digestAndClaims desc sp);
      let checkClaimErrs :=
        match err with
        | Some e => checkClaimErrs ++ [e]
        | None => checkClaimErrs
        end in
      if decide (foundDigest ≠ v1.Hash_String (v1.Digest desc)) then
        verifyClaims_loop desc annotations signatures
          (checkClaimErrs ++
             ["invalid or missing digest in claim: " +:+ foundDigest])
          verifiedPayloads
      else
        ok ← invoke (CallCorrectAnnotations annotations foundAnnotations)
               (correctAnnotations annotations foundAnnotations);
        if negb ok then
          verifyClaims_loop desc annotations signatures
            (checkClaimErrs ++
               ["invalid or missing annotation in claim: " +:+
                Sprint_map foundAnnotations])
            verifiedPayloads
        else
          verifyClaims_loop desc annotations signatures checkClaimErrs
            (verifiedPayloads ++ [sp])
  end.

Definition verifyClaims (desc : v1.Descriptor) (annotations : GoMap)
    (signatures : list SignedPayload)
    : Traced (option (list SignedPayload) * option error) :=
  '(verifiedPayloads, checkClaimErrs) ←
    verifyClaims_loop desc annotations signatures [] [];
  if decide (length verifiedPayloads = 0%nat)
  then mret (None, Some ("no matching claims:" +:+ LF +:+
                         GoStrings.Join checkClaimErrs (LF +:+ "  ")))
  else mret (Some verifiedPayloads, None).

(** Ranging over a nil slice visits nothing. *)
Definition elems {A} (s : option (list A)) : list A := default [] s.

Definition Verify (ref : Reference) (pubKey : list Byte.byte)
    (checkClaims : bool) (annotations : GoMap)
    : Traced (option (list SignedPayload) * option error) :=
  match FetchSignatures ref with
  | inr err => mret (None, Some err)
  | inl (signatures, desc) =>
      '(valid, err) ← validSignatures pubKey signatures;
      match err with
      | Some e => mret (None, Some e)
      | None =>
          if negb checkClaims then mret (valid, None)
          else
            '(verified, err) ← verifyClaims desc annotations (elems valid);
            match err with
            | Some e => mret (None, Some e)
            | None => mret (verified, None)
            end
      end
  end.

End verify.

(** ** Per-item view of the two loops *)

Section per_item.
Context {env : Collaborators}.

(** What phase 1 decides for one candidate. *)
Definition signature_error (pubKey : list Byte.byte) (sp : SignedPayload)
    : option error :=
  VerifySignature pubKey (Base64Signature sp) (Payload sp).

Definition signature_valid (pubKey : list Byte.byte) (sp : SignedPayload)
    : Prop :=
  signature_error pubKey sp = None.

Global Instance signature_valid_dec pubKey sp :
  Decision (signature_valid pubKey sp).
Proof. unfold signature_valid. apply _. Defined.

(** What one iteration of [verifyClaims] decides, appends and calls. *)
Definition claim_accepted (desc : v1.Descriptor) (annotations : GoMap)
    (sp : SignedPayload) : Prop :=
  (digestAndClaims desc sp).1.1 = v1.Hash_String (v1.Digest desc) ∧
  correctAnnotations annotations (digestAndClaims desc sp).1.2 = true.

Global Instance claim_accepted_dec desc annotations sp :
  Decision (claim_accepted desc annotations sp).
Proof. unfold claim_accepted. apply _. Defined.

Definition claim_errors (desc : v1.Descriptor) (annotations : GoMap)
    (sp : SignedPayload) : list string :=
  let '(foundDigest, foundAnnotations, err) := digestAndClaims desc sp in
  option_list err ++
  (if decide (foundDigest ≠ v1.Hash_String (v1.Digest desc)) then
     ["invalid or missing digest in claim: " +:+ foundDigest]
   else if correctAnnotations annotations foundAnnotations then []
   else ["invalid or missing annotation in claim: " +:+
         Sprint_map foundAnnotations]).

Definition claim_calls (desc : v1.Descriptor) (annotations : GoMap)
    (sp : SignedPayload) : list call :=
  CallDigestAndClaims desc sp ::
  (if decide ((digestAndClaims desc sp).1.1 ≠
              v1.Hash_String (v1.Digest desc)) then []
   else [CallCorrectAnnotations annotations (digestAndClaims desc sp).1.2]).
End per_item.

(** ** The annotation matcher, as specified *)

(** The subset check as the specification words it: every wanted key is a
    key of the claim's map, with the same value. *)
Definition annotations_subset (wanted have : GoMap) : Prop :=
  ∀ k v, entry wanted k = Some v → entry have k = Some v.

(** ** Lines of an error text *)

(** Whether a string contains a line feed. *)
Fixpoint has_LF (s : string) : bool :=
  match s with
  | EmptyString => false
  | String c s => if decide (c = LFc) then true else has_LF s
  end.

(** The pieces of a string between line feeds, as [strings.Split(s, "\n")]
    returns them. *)
Fixpoint lines (s : string) : list string :=
  match s with
  | EmptyString => [""]
  | String c s =>
      if decide (c = LFc) then "" :: lines s
      else match lines s with
           | [] => [String c ""]
           | l :: ls => String c l :: ls
           end
  end.

(** The separator both loops' reports are joined with: a line feed and two
    spaces. *)
Definition separator : string := LF +:+ "  ".

(** ** A concrete world for examples

    Signatures are written in clear: a signature text decodes to its own
    bytes unless it starts with ["!"], and a signature is valid for a payload
    under a key when it is the key followed by the payload. A payload decodes
    to a claim whose digest is spelled by its bytes after the first one; the
    first byte ["a"] adds the annotation [env:prod]. *)
Module Scenario.
Definition decode (s : string) : list Byte.byte + Z :=
  match s with
  | String "!"%char _ => inr 0
  | _ => inl (list_byte_of_string s)
  end.

Definition verify (pub msg sig : list Byte.byte) : bool :=
  bool_decide (sig = pub ++ msg).

Definition annotations_of (b : Byte.byte) : GoMap :=
  if decide (b = Byte.x61) then Some {[ "env" := "prod" ]} else None.

Definition unmarshal_simple (data : list Byte.byte) : SimpleSigning + error :=
  match data with
  | [] => inr "unexpected end of JSON input"
  | b :: rest =>
      inl {| SimpleSigning_Critical :=
               {| Critical_Image :=
                    {| DockerManifestDigest := string_of_list_byte rest |} |};
             Optional := annotations_of b |}
  end.

Definition unmarshal_descriptor (data : list Byte.byte)
    : v1.Descriptor + error :=
  match data with
  | [] => inr "unexpected end of JSON input"
  | b :: rest =>
      inl {| v1.MediaType := "";
             v1.Digest := {| v1.Algorithm := "sha256";
                             v1.Hex := string_of_list_byte rest |};
             v1.Annotations := annotations_of b |}
  end.

Definition sprint (m : GoMap) : string :=
  "map[" +:+
  GoStrings.Join ((λ kv, kv.1 +:+ ":" +:+ kv.2) <$> range m) " " +:+ "]".

Definition world (signatures : list SignedPayload) (desc : v1.Descriptor)
    : Collaborators :=
  {| Reference := unit;
     FetchSignatures := λ _, inl (signatures, desc);
     ed25519_Verify := verify;
     DecodeString := decode;
     Unmarshal_Descriptor := unmarshal_descriptor;
     Unmarshal_SimpleSigning := unmarshal_simple;
     Sprint_map := sprint |}.

Definition key : list Byte.byte := list_byte_of_string "K".

(** A payload signed with [key]. *)
Definition signed (payload : string) : SignedPayload :=
  {| Base64Signature := "K" +:+ payload;
     Payload := list_byte_of_string payload |}.

(** A payload with a signature that is not of [key]. *)
Definition forged (payload : string) : SignedPayload :=
  {| Base64Signature := "X" +:+ payload;
     Payload := list_byte_of_string payload |}.

(** A payload whose signature text is not base64. *)
Definition garbled (payload : string) : SignedPayload :=
  {| Base64Signature := "!";
     Payload := list_byte_of_string payload |}.

Definition simple_desc (hex : string) : v1.Descriptor :=
  {| v1.MediaType := "application/vnd.dev.cosign.simplesigning.v1+json";
     v1.Digest := {| v1.Algorithm := "sha256"; v1.Hex := hex |};
     v1.Annotations := None |}.

Definition oci_desc (hex : string) : v1.Descriptor :=
  {| v1.MediaType := types.OCIManifestSchema1;
     v1.Digest := {| v1.Algorithm := "sha256"; v1.Hex := hex |};
     v1.Annotations := None |}.

Definition other_desc (hex : string) : v1.Descriptor :=
  {| v1.MediaType := "text/plain";
     v1.Digest := {| v1.Algorithm := "sha256"; v1.Hex := hex |};
     v1.Annotations := None |}.

Definition desc : v1.Descriptor := simple_desc "abc".

Definition wanted : GoMap := Some {[ "env" := "prod" ]}.

(** Six candidates: signed without annotations, forged, garbled, signed
    with an empty payload, signed with the wanted annotation, and signed
    for another digest. *)
Definition candidates : list SignedPayload :=
  [signed "-sha256:abc"; forged "-sha256:abc"; garbled "x"; signed "";
   signed "asha256:abc"; signed "-sha256:def"].

(** The four of them with a valid signature. *)
Definition survivors : list SignedPayload :=
  [signed "-sha256:abc"; signed ""; signed "asha256:abc";
   signed "-sha256:def"].

Definition mixed : Collaborators := world candidates desc.

(** Two candidates, neither with a valid signature. *)
Definition rejected : list SignedPayload :=
  [forged "-sha256:abc"; garbled "x"].

Definition all_rejected : Collaborators := world rejected desc.

(** Candidates for other digests, one of them differing from the
    descriptor's only in the case of the algorithm. *)
Definition others : list SignedPayload :=
  [signed "-SHA256:abc"; forged "-sha256:abc"; signed "-sha256:def"].

Definition other_digests : Collaborators := world others desc.

(** The six candidates under a descriptor of an unknown media type. *)
Definition unknown_format : Collaborators :=
  world candidates (other_desc "abc").
End Scenario.

(** ** The rest of verify.go and the commands of cmd/cli

    [LoadPublicKey] and [LoadPublicKeyFromPrivKey] of verify.go, and
    [signatureFileNotExists], [signatureType], [signatureBytes], [UploadCmd]
    and [SignBlobCmd] of cmd/cli. They read files and standard input, prompt,
    reach the registry and write to the standard streams: every such
    interaction is recorded, in order, as an [effect], and a non-nil error
    ends the function as its [return err] does. *)

(** The error of [os.Stat], as far as [os.IsNotExist] tells it apart. *)
Inductive StatError := ErrNotExist | ErrOther.

Definition os_IsNotExist (err : option StatError) : bool :=
  match err with
  | Some ErrNotExist => true
  | _ => false
  end.

(** [pem.Block], restricted to the fields the code reads and writes. *)
Record Block := { Block_Type : string; Block_Bytes : list Byte.byte }.

(** The dynamic type of the key [x509.ParsePKIXPublicKey] returns, as far as
    the type assertion [pub.(ed25519.PublicKey)] tells it apart. *)
Inductive PublicKey :=
  | Ed25519PublicKey (key : list Byte.byte)
  | OtherPublicKey.

(** What the commands call outside of verify.go and cmd/cli. *)
Class Platform `{Collaborators} := {
  (** [os.Stat(name)]: its error. *)
  os_Stat : string → option StatError;
  (** [ioutil.ReadFile(name)] *)
  ioutil_ReadFile : string → list Byte.byte + error;
  (** [ioutil.ReadAll(os.Stdin)] *)
  ioutil_ReadAll_Stdin : list Byte.byte + error;
  (** [base64.StdEncoding.EncodeToString(src)] *)
  EncodeToString : list Byte.byte → string;
  (** [pem.Decode(data)]: the block, [None] for a nil block. *)
  pem_Decode : list Byte.byte → option Block;
  (** [pem.EncodeToMemory(b)] *)
  pem_EncodeToMemory : Block → list Byte.byte;
  (** [x509.ParsePKIXPublicKey(der)] *)
  ParsePKIXPublicKey : list Byte.byte → PublicKey + error;
  (** [x509.MarshalPKIXPublicKey(pub)] *)
  MarshalPKIXPublicKey : PublicKey → list Byte.byte + error;
  (** [ed25519.PrivateKey.Public()] *)
  ed25519_Public : list Byte.byte → list Byte.byte;
  (** [ed25519.Sign(privateKey, message)] *)
  ed25519_Sign : list Byte.byte → list Byte.byte → list Byte.byte;
  (** The verb [%q] of [fmt] on a string. *)
  Quote : string → string;
  (** [cosign.LoadPrivateKey(key, pass)] *)
  cosign_LoadPrivateKey : list Byte.byte → list Byte.byte →
                          list Byte.byte + error;
  (** [name.Tag] *)
  Tag : Type;
  (** [name.ParseReference(s)] *)
  ParseReference : string → Reference + error;
  (** [remote.Get(ref, ...)]: the descriptor of the image. *)
  remote_Get : Reference → v1.Descriptor + error;
  (** [ref.Context().Tag(s)] *)
  Context_Tag : Reference → string → Tag;
  (** [cosign.Munge(desc)] *)
  cosign_Munge : v1.Descriptor → string;
  (** [cosign.Payload(desc, nil)]: the payload and its media type. *)
  cosign_Payload : v1.Descriptor → (list Byte.byte * string) + error;
  (** [cosign.Upload(signature, payload, mediaType, dstTag)] *)
  cosign_Upload : list Byte.byte → list Byte.byte → string → Tag →
                  option error
}.

Section commands.
Context {env : Collaborators} {platform : Platform}.

(** The interactions of a command with the outside. *)
Inductive effect :=
  | Stat (name : string)
  | ReadFile (name : string)
  | ReadStdin
  | AskPass (confirm : bool)
  | WriteStderr (text : string)
  | WriteStdout (data : list Byte.byte)
  | RemoteGet (ref : Reference)
  | UploadSignature (signature payload : list Byte.byte) (mt : string)
      (dstTag : Tag).

(** The effects performed so far, and the value or the error returned. *)
Definition IO (A : Type) : Type := list effect * (A + error).

Global Instance IO_ret : MRet IO := λ A a, ([], inl a).
Global Instance IO_bind : MBind IO := λ A B f m,
  match m.2 with
  | inl a => (m.1 ++ (f a).1, (f a).2)
  | inr err => (m.1, inr err)
  end.

(** [perform e r]: the interaction [e] takes place and yields [r]. *)
Definition perform {A} (e : effect) (r : A + error) : IO A := ([e], r).

(** [return err] with a non-nil error. *)
Definition throw {A} (err : error) : IO A := ([], inr err).

(** A call that has no effect and may return an error. *)
Definition try {A} (r : A + error) : IO A := ([], r).

Definition effects {A} (m : IO A) : list effect := m.1.
Definition outcome {A} (m : IO A) : A + error := m.2.

(** *** verify.go *)

Definition pubKeyPemType : string := "PUBLIC KEY".

Definition LoadPublicKey (keyRef : string) : IO (list Byte.byte) :=
  err ← perform (Stat keyRef) (inl (os_Stat keyRef));
  pubBytes ←
    (if os_IsNotExist err then
       match DecodeString keyRef with
       | inr e => throw (base64.CorruptInputError_Error e)
       | inl pubBytes => mret pubBytes
       end
     else
       b ← perform (ReadFile keyRef) (ioutil_ReadFile keyRef);
       match pem_Decode b with
       | None => throw "pem.Decode failed"
       | Some p =>
           if decide (Block_Type p ≠ pubKeyPemType)
           then throw ("not public: " +:+ Quote (Block_Type p))
           else mret (Block_Bytes p)
       end);
  pub ← try (ParsePKIXPublicKey pubBytes);
  match pub with
  | Ed25519PublicKey ed => mret ed
  | OtherPublicKey => throw "invalid public key"
  end.

Definition LoadPublicKeyFromPrivKey (pk : list Byte.byte)
    : list Byte.byte + error :=
  match MarshalPKIXPublicKey (Ed25519PublicKey (ed25519_Public pk)) with
  | inr err => inr err
  | inl pubKey =>
      inl (pem_EncodeToMemory
             {| Block_Type := "PUBLIC KEY"; Block_Bytes := pubKey |})
  end.

(** *** cmd/cli/upload.go *)

(** [SignatureArgType] is a [uint8]; its three constants are numbered by
    [iota]. *)
Definition StdinSignature : Z := 0.
Definition RawSignature : Z := 1.
Definition FileSignature : Z := 2.

Definition signatureFileNotExists (sigRef : string) : IO bool :=
  err ← perform (Stat sigRef) (inl (os_Stat sigRef));
  mret (os_IsNotExist err).

Definition signatureType (sigRef : string) : IO Z :=
  if decide (sigRef = "-") then mret StdinSignature
  else
    notExists ← signatureFileNotExists sigRef;
    if notExists : bool then mret RawSignature
    else mret FileSignature.

Definition signatureBytes (sigRef : string) : IO (list Byte.byte) :=
  t ← signatureType sigRef;
  if decide (t = StdinSignature) then perform ReadStdin ioutil_ReadAll_Stdin
  else if decide (t = RawSignature) then mret (list_byte_of_string sigRef)
  else if decide (t = FileSignature) then
    perform (ReadFile sigRef) (ioutil_ReadFile sigRef)
  else throw "unknown signature arg type".

Definition UploadCmd (sigRef payloadRef imageRef : string) : IO unit :=
  b64SigBytes ← signatureBytes sigRef;
  if decide (length b64SigBytes = 0%nat) then throw "empty signature"
  else
    ref ← try (ParseReference imageRef);
    get ← perform (RemoteGet ref) (remote_Get ref);
    let dstTag := Context_Tag ref (cosign_Munge get) in
    '(payload, mt) ←
      (if decide (payloadRef = "") then try (cosign_Payload get)
       else
         payload ← perform (ReadFile payloadRef) (ioutil_ReadFile payloadRef);
         mret (payload,
               "application/vnd.dev.cosign.simplesigning.v1+json"));
    match DecodeString (string_of_list_byte b64SigBytes) with
    | inr e => throw (base64.CorruptInputError_Error e)
    | inl sigBytes =>
        perform (UploadSignature sigBytes payload mt dstTag)
          match cosign_Upload sigBytes payload mt dstTag with
          | Some err => inr err
          | None => inl ()
          end
    end.

(** *** cmd/cli/sign_blob.go *)

Definition SignBlobCmd (keyPath payloadPath : string) (b64 : bool)
    (pf : bool → list Byte.byte + error) : IO unit :=
  payload ←
    (if decide (payloadPath = "-") then perform ReadStdin ioutil_ReadAll_Stdin
     else
       _ ← perform (WriteStderr ("Using payload from: " +:+ payloadPath +:+ LF))
             (inl ());
       perform (ReadFile payloadPath) (ioutil_ReadFile payloadPath));
  pass ← perform (AskPass false) (pf false);
  kb ← perform (ReadFile keyPath) (ioutil_ReadFile keyPath);
  pk ← try (cosign_LoadPrivateKey kb pass);
  let signature := ed25519_Sign pk payload in
  if b64 then
    perform (WriteStdout (list_byte_of_string
                            (EncodeToString signature +:+ LF))) (inl ())
  else
    perform (WriteStdout signature) (inl ()).

End commands.

(** ** A concrete platform for examples

    A few files, a standard input, and toy formats: base64 text is ["="]
    followed by the bytes, a PEM file is ["P"] (public key) or ["S"] followed
    by the block's bytes, a PKIX key is ["e"] (ed25519) or ["r"] followed by
    the key, a signature is the public key followed by the message, and the
    public key of a private key is the key itself. *)
Module Workstation.
Definition files : gmap string string :=
  list_to_map
    [("sig.b64", "=Kblob"); ("bad.b64", "Kblob"); ("empty", "");
     ("blob", "blob"); ("payload.json", "-sha256:abc");
     ("cosign.key", "K"); ("cosign.pub", "PeK"); ("private.pem", "SeK");
     ("rsa.pub", "PrK"); ("note.txt", "hello")].

Definition stat (name : string) : option StatError :=
  match files !! name with
  | Some _ => None
  | None => if decide (name = "locked") then Some ErrOther
            else Some ErrNotExist
  end.

Definition read_file (name : string) : list Byte.byte + error :=
  match files !! name with
  | Some content => inl (list_byte_of_string content)
  | None => inr ("open " +:+ name +:+ ": no such file or directory")
  end.

Definition decode (s : string) : list Byte.byte + Z :=
  match s with
  | String "="%char rest => inl (list_byte_of_string rest)
  | _ => inr 0
  end.

Definition encode (src : list Byte.byte) : string :=
  String "="%char (string_of_list_byte src).

Definition pem_decode (data : list Byte.byte) : option Block :=
  match data with
  | Byte.x50 :: rest =>
      Some {| Block_Type := "PUBLIC KEY"; Block_Bytes := rest |}
  | Byte.x53 :: rest =>
      Some {| Block_Type := "PRIVATE KEY"; Block_Bytes := rest |}
  | _ => None
  end.

Definition pem_encode (b : Block) : list Byte.byte :=
  (if decide (Block_Type b = "PUBLIC KEY") then Byte.x50 else Byte.x53)
  :: Block_Bytes b.

Definition parse_pkix (der : list Byte.byte) : PublicKey + error :=
  match der with
  | Byte.x65 :: key => inl (Ed25519PublicKey key)
  | Byte.x72 :: _ => inl OtherPublicKey
  | _ => inr "x509: malformed public key"
  end.

Definition marshal_pkix (pub : PublicKey) : list Byte.byte + error :=
  match pub with
  | Ed25519PublicKey key => inl (Byte.x65 :: key)
  | OtherPublicKey => inr "x509: unsupported public key type"
  end.

Definition quote (s : string) : string :=
  String "034"%char (s +:+ String "034"%char "").

Definition load_private_key (key pass : list Byte.byte)
    : list Byte.byte + error :=
  if decide (pass = list_byte_of_string "secret") then inl key
  else inr "decryption failed".

Definition parse_reference (s : string) : string + error :=
  if decide (s = "") then inr "could not parse reference" else inl s.

Definition remote_get (ref : string) : v1.Descriptor + error :=
  if decide (ref = "registry/image") then inl Scenario.desc
  else inr "MANIFEST_UNKNOWN".

Definition munge (d : v1.Descriptor) : string :=
  v1.Algorithm (v1.Digest d) +:+ "-" +:+ v1.Hex (v1.Digest d) +:+ ".cosign".

Definition payload_of (d : v1.Descriptor) : list Byte.byte * string + error :=
  inl (list_byte_of_string ("-" +:+ v1.Hash_String (v1.Digest d)),
       "application/vnd.dev.cosign.simplesigning.v1+json").

Definition env : Collaborators :=
  {| Reference := string;
     FetchSignatures := λ _, inr "not fetched";
     ed25519_Verify := Scenario.verify;
     DecodeString := decode;
     Unmarshal_Descriptor := Scenario.unmarshal_descriptor;
     Unmarshal_SimpleSigning := Scenario.unmarshal_simple;
     Sprint_map := Scenario.sprint |}.

Definition platform : Platform (H := env) :=
  Build_Platform env
    (* os_Stat *) stat
    (* ioutil_ReadFile *) read_file
    (* ioutil_ReadAll_Stdin *) (inl (list_byte_of_string "=Kstdin"))
    (* EncodeToString *) encode
    (* pem_Decode *) pem_decode
    (* pem_EncodeToMemory *) pem_encode
    (* ParsePKIXPublicKey *) parse_pkix
    (* MarshalPKIXPublicKey *) marshal_pkix
    (* ed25519_Public *) (λ pk, pk)
    (* ed25519_Sign *) (λ pk message, pk ++ message)
    (* Quote *) quote
    (* cosign_LoadPrivateKey *) load_private_key
    (* Tag *) string
    (* ParseReference *) parse_reference
    (* remote_Get *) remote_get
    (* Context_Tag *) (λ ref s, ref +:+ ":" +:+ s)
    (* cosign_Munge *) munge
    (* cosign_Payload *) payload_of
    (* cosign_Upload *) (λ _ _ _ _, None).

(** The passphrase prompt of a user who types the right passphrase, and of
    one who gives up. *)
Definition types_secret (confirm : bool) : list Byte.byte + error :=
  inl (list_byte_of_string "secret").

Definition gives_up (confirm : bool) : list Byte.byte + error :=
  inr "interrupted".
End Workstation.

(** * Lemmas *)

(** ** Text *)

Section text.
Implicit Types s t : string.

Lemma append_cons c s t : String c s +:+ t = String c (s +:+ t).
Proof. done. Qed.

Lemma append_nil_r s : s +:+ "" = s.
Proof. induction s as [|c s IH]; [done|]. by rewrite append_cons, IH. Qed.

Lemma has_LF_append s t : has_LF (s +:+ t) = has_LF s || has_LF t.
Proof.
  induction s as [|c s IH]; [done|].
  rewrite append_cons. cbn. by case_decide.
Qed.

Lemma lines_append s t :
  has_LF s = false →
  lines (s +:+ t) =
  match lines t with [] => [s] | l :: ls => (s +:+ l) :: ls end.
Proof.
  induction s as [|c s IH]; intros Hs.
  - change ("" +:+ t) with t. destruct (lines t) eqn:Ht; [|done].
    by destruct t as [|c t]; cbn in Ht; repeat case_match.
  - rewrite append_cons. cbn in *. case_decide; [done|].
    rewrite IH by done. by destruct (lines t).
Qed.

Lemma lines_single s : has_LF s = false → lines s = [s].
Proof.
  intros Hs. rewrite <-(append_nil_r s) at 1.
  rewrite lines_append by done. cbn. by rewrite append_nil_r.
Qed.

Lemma lines_line s t : has_LF s = false → lines (s +:+ LF +:+ t) = s :: lines t.
Proof.
  intros Hs. rewrite lines_append by done.
  change (LF +:+ t) with (String LFc t). cbn.
  rewrite decide_True by done. by rewrite append_nil_r.
Qed.

Lemma lines_Join m ms :
  Forall (λ s, has_LF s = false) (m :: ms) →
  lines (GoStrings.Join (m :: ms) separator) = m :: ((λ s, "  " +:+ s) <$> ms).
Proof.
  revert m. induction ms as [|m' ms IH]; intros m Hall.
  - cbn. apply lines_single. by inversion Hall.
  - change (GoStrings.Join (m :: m' :: ms) separator)
      with (m +:+ LF +:+ "  " +:+ GoStrings.Join (m' :: ms) separator).
    inversion Hall as [|?? Hm Hall']; subst.
    rewrite lines_line by done.
    rewrite lines_append by done. by rewrite IH.
Qed.

Lemma has_LF_string_of_uint d : has_LF (NilEmpty.string_of_uint d) = false.
Proof. induction d; cbn; by repeat case_decide. Qed.

Lemma has_LF_FormatInt i : has_LF (strconv.FormatInt i) = false.
Proof.
  unfold strconv.FormatInt.
  destruct (Z.to_int i) as [d|d]; cbn;
    destruct d; cbn; repeat case_decide; try done;
    apply has_LF_string_of_uint.
Qed.
End text.

(** ** The annotation matcher *)

Section matcher.
Implicit Types wanted have : GoMap.

Lemma index_entry have k : index have k = default "" (entry have k).
Proof. done. Qed.

Lemma elem_of_range wanted k v :
  (k, v) ∈ range wanted ↔ entry wanted k = Some v.
Proof.
  destruct wanted as [m|]; cbn.
  - apply elem_of_map_to_list.
  - split; [by intros ?%elem_of_nil | done].
Qed.

Lemma correctAnnotations_range_true entries have :
  correctAnnotations_range entries have = true ↔
  ∀ k v, (k, v) ∈ entries → index have k = v.
Proof.
  induction entries as [|[k v] entries IH]; cbn.
  - split; [|done]. by intros _ k v ?%elem_of_nil.
  - destruct (decide (index have k ≠ v)) as [Hne|Heq].
    + split; [done|]. intros Hall. destruct Hne. apply Hall. left.
    + apply dec_stable in Heq. rewrite IH. split.
      * intros Hall k' v' [[= -> ->]|?]%elem_of_cons; auto.
      * intros Hall k' v' ?. apply Hall. by right.
Qed.

(** The result does not depend on the order in which [range] visits the
    entries. *)
Lemma correctAnnotations_range_Permutation entries entries' have :
  entries ≡ₚ entries' →
  correctAnnotations_range entries have =
  correctAnnotations_range entries' have.
Proof.
  intros Hp. apply eq_true_iff_eq.
  rewrite !correctAnnotations_range_true.
  by setoid_rewrite Hp.
Qed.

Lemma correctAnnotations_true wanted have :
  correctAnnotations wanted have = true ↔
  ∀ k v, entry wanted k = Some v → index have k = v.
Proof.
  unfold correctAnnotations. rewrite correctAnnotations_range_true.
  by setoid_rewrite elem_of_range.
Qed.

Lemma index_eq_iff have k v :
  index have k = v ↔
  entry have k = Some v ∨ (v = "" ∧ entry have k = None).
Proof.
  rewrite index_entry. destruct (entry have k) as [w|]; cbn.
  - split; [intros ->; by left | by intros [[= ->]|[_ ?]]].
  - split; [intros <-; by right | by intros [?|[-> _]]].
Qed.

Lemma entry_delete wanted k k' :
  entry (delete k <$> wanted) k' =
  if decide (k = k') then None else entry wanted k'.
Proof.
  destruct wanted as [m|]; cbn.
  - rewrite lookup_delete. by repeat case_decide.
  - by case_decide.
Qed.
End matcher.

(** ** The two loops *)

Section loops.
Context {env : Collaborators}.

Lemma validSignatures_loop_spec pubKey signatures valid errs :
  validSignatures_loop pubKey signatures valid errs =
  ((valid ++ filter (signature_valid pubKey) signatures,
    errs ++ omap (signature_error pubKey) signatures),
   map (λ sp, CallVerifySignature (Base64Signature sp) (Payload sp))
     signatures).
Proof.
  revert valid errs.
  induction signatures as [|sp signatures IH]; intros valid errs.
  - cbn. by rewrite !app_nil_r.
  - cbn [validSignatures_loop map omap].
    unfold mbind, Traced_bind, invoke.
    rewrite filter_cons.
    change (VerifySignature pubKey (Base64Signature sp) (Payload sp))
      with (signature_error pubKey sp).
    destruct (signature_error pubKey sp) as [e|] eqn:He.
    + rewrite IH, decide_False by (unfold signature_valid; congruence).
      cbn. rewrite He. by rewrite <-app_assoc.
    + rewrite IH, decide_True by done.
      cbn. rewrite He. by rewrite <-app_assoc.
Qed.

Lemma claim_accepted_eq desc annotations sp d a err :
  digestAndClaims desc sp = (d, a, err) →
  claim_accepted desc annotations sp ↔
  d = v1.Hash_String (v1.Digest desc) ∧ correctAnnotations annotations a = true.
Proof. intros Hdc. unfold claim_accepted. by rewrite Hdc. Qed.

Lemma claim_errors_eq desc annotations sp d a err :
  digestAndClaims desc sp = (d, a, err) →
  claim_errors desc annotations sp =
  option_list err ++
  (if decide (d ≠ v1.Hash_String (v1.Digest desc)) then
     ["invalid or missing digest in claim: " +:+ d]
   else if correctAnnotations annotations a then []
   else ["invalid or missing annotation in claim: " +:+ Sprint_map a]).
Proof. intros Hdc. unfold claim_errors. by rewrite Hdc. Qed.

Lemma claim_calls_eq desc annotations sp d a err :
  digestAndClaims desc sp = (d, a, err) →
  claim_calls desc annotations sp =
  CallDigestAndClaims desc sp ::
  (if decide (d ≠ v1.Hash_String (v1.Digest desc)) then []
   else [CallCorrectAnnotations annotations a]).
Proof. intros Hdc. unfold claim_calls. by rewrite Hdc. Qed.

Lemma verifyClaims_loop_spec desc annotations signatures errs verified :
  verifyClaims_loop desc annotations signatures errs verified =
  ((verified ++ filter (claim_accepted desc annotations) signatures,
    errs ++ concat (map (claim_errors desc annotations) signatures)),
   concat (map (claim_calls desc annotations) signatures)).
Proof.
  revert errs verified.
  induction signatures as [|sp signatures IH]; intros errs verified.
  - cbn. by rewrite !app_nil_r.
  - cbn [verifyClaims_loop map concat].
    unfold mbind, Traced_bind, invoke.
    rewrite filter_cons.
    destruct (digestAndClaims desc sp) as [[d a] err] eqn:Hdc.
    rewrite (claim_errors_eq _ annotations _ _ _ _ Hdc).
    rewrite (claim_calls_eq _ annotations _ _ _ _ Hdc).
    pose proof (claim_accepted_eq _ annotations _ _ _ _ Hdc) as Hacc.
    destruct (decide (d ≠ _)) as [Hne|Heq].
    + rewrite IH, decide_False by (rewrite Hacc; intros [? _]; done).
      destruct err; cbn; by rewrite <-?app_assoc.
    + apply dec_stable in Heq.
      destruct (correctAnnotations annotations a) eqn:Hok;
        cbn [negb]; rewrite IH.
      * rewrite decide_True by (by rewrite Hacc).
        destruct err; cbn; by rewrite <-?app_assoc, ?app_nil_r.
      * rewrite decide_False by (rewrite Hacc; intros [_ ?]; done).
        destruct err; cbn; by rewrite <-?app_assoc.
Qed.
End loops.

(** ** The two phases and the orchestrator, item by item *)

Section pipeline.
Context {env : Collaborators}.
Implicit Types (sp : SignedPayload) (signatures : list SignedPayload).
Implicit Types (desc : v1.Descriptor) (annotations : GoMap).

Lemma validSignatures_spec pubKey signatures :
  validSignatures pubKey signatures =
  (if decide (filter (signature_valid pubKey) signatures = []) then
     (None, Some ("no matching signatures:" +:+ LF +:+
                  GoStrings.Join (omap (signature_error pubKey) signatures)
                    separator))
   else (Some (filter (signature_valid pubKey) signatures), None),
   map (λ sp, CallVerifySignature (Base64Signature sp) (Payload sp))
     signatures).
Proof.
  unfold validSignatures. rewrite validSignatures_loop_spec.
  unfold mbind, Traced_bind. cbn [app].
  destruct (filter (signature_valid pubKey) signatures) as [|sp valid];
    cbn; repeat case_decide; try congruence;
    unfold mret, Traced_ret; by rewrite app_nil_r.
Qed.

Lemma verifyClaims_spec desc annotations signatures :
  verifyClaims desc annotations signatures =
  (if decide (filter (claim_accepted desc annotations) signatures = []) then
     (None, Some ("no matching claims:" +:+ LF +:+
                  GoStrings.Join
                    (concat (map (claim_errors desc annotations) signatures))
                    separator))
   else (Some (filter (claim_accepted desc annotations) signatures), None),
   concat (map (claim_calls desc annotations) signatures)).
Proof.
  unfold verifyClaims. rewrite verifyClaims_loop_spec.
  unfold mbind, Traced_bind. cbn [app].
  destruct (filter (claim_accepted desc annotations) signatures)
    as [|sp verified]; cbn; repeat case_decide; try congruence;
    unfold mret, Traced_ret; by rewrite app_nil_r.
Qed.

Lemma Verify_spec ref pubKey checkClaims annotations signatures desc :
  FetchSignatures ref = inl (signatures, desc) →
  Verify ref pubKey checkClaims annotations =
  (if decide (filter (signature_valid pubKey) signatures = []) then
     (None, Some ("no matching signatures:" +:+ LF +:+
                  GoStrings.Join (omap (signature_error pubKey) signatures)
                    separator))
   else if negb checkClaims then
     (Some (filter (signature_valid pubKey) signatures), None)
   else
     (verifyClaims desc annotations
        (filter (signature_valid pubKey) signatures)).1,
   map (λ sp, CallVerifySignature (Base64Signature sp) (Payload sp))
     signatures ++
   (if decide (filter (signature_valid pubKey) signatures = []) then []
    else if negb checkClaims then []
    else (verifyClaims desc annotations
            (filter (signature_valid pubKey) signatures)).2)).
Proof.
  intros Hfetch. unfold Verify. rewrite Hfetch, validSignatures_spec.
  unfold mbind, Traced_bind.
  destruct (decide (filter (signature_valid pubKey) signatures = []));
    [done|].
  destruct checkClaims; cbn [negb]; [|done].
  unfold elems. cbn [default id].
  rewrite !verifyClaims_spec. cbn [fst snd].
  case_decide; unfold mret, Traced_ret; by rewrite app_nil_r.
Qed.

Lemma Verify_fetch_error ref pubKey checkClaims annotations err :
  FetchSignatures ref = inr err →
  Verify ref pubKey checkClaims annotations = ((None, Some err), []).
Proof. intros Hfetch. unfold Verify. by rewrite Hfetch. Qed.

(** Phase 1 leaves one message per failing candidate. *)
Lemma signature_errors_Forall2 pubKey signatures :
  Forall (λ sp, ¬ signature_valid pubKey sp) signatures →
  Forall2 (λ sp m, signature_error pubKey sp = Some m) signatures
    (omap (signature_error pubKey) signatures) ∧
  filter (signature_valid pubKey) signatures = [].
Proof.
  induction 1 as [|sp signatures Hsp _ [IH1 IH2]]; [done|].
  rewrite filter_cons_False by done. split; [|done].
  cbn. unfold signature_valid in Hsp.
  destruct (signature_error pubKey sp) as [m|] eqn:Hm; [|done].
  by constructor.
Qed.

Lemma signature_error_one_line pubKey sp m :
  signature_error pubKey sp = Some m → has_LF m = false.
Proof.
  unfold signature_error, VerifySignature.
  destruct (DecodeString _) as [signature|e].
  - destruct (ed25519_Verify _ _ _); cbn; [done|]. by intros [= <-].
  - intros [= <-]. unfold base64.CorruptInputError_Error.
    rewrite has_LF_append, has_LF_FormatInt. done.
Qed.

Lemma signature_errors_one_line pubKey signatures msgs :
  Forall2 (λ sp m, signature_error pubKey sp = Some m) signatures msgs →
  Forall (λ s, has_LF s = false) msgs.
Proof.
  induction 1; constructor; eauto using signature_error_one_line.
Qed.
End pipeline.

(** ** Phase 2, item by item *)

Section phase2.
Context {env : Collaborators}.
Implicit Types (sp : SignedPayload) (signatures : list SignedPayload).
Implicit Types (desc : v1.Descriptor) (annotations : GoMap).

Lemma elem_of_concat_map {A B} (f : A → list B) (l : list A) x y :
  x ∈ l → y ∈ f x → y ∈ concat (map f l).
Proof.
  induction 1 as [x l|x x' l _ IH]; intros Hy; cbn; apply elem_of_app; auto.
Qed.

Lemma elem_of_concat_map_inv {A B} (f : A → list B) (l : list A) y :
  y ∈ concat (map f l) → ∃ x, x ∈ l ∧ y ∈ f x.
Proof.
  induction l as [|x l IH]; cbn; [by intros ?%elem_of_nil|].
  intros [Hy|Hy]%elem_of_app.
  - exists x. split; [left|done].
  - destruct (IH Hy) as (x' & ? & ?). exists x'. split; [by right|done].
Qed.

Lemma filter_nil_Forall {A} (P : A → Prop) `{!∀ x, Decision (P x)}
    (l : list A) :
  Forall (λ x, ¬ P x) l → filter P l = [].
Proof. induction 1; [done|]. by rewrite filter_cons_False. Qed.

Lemma filter_not_nil {A} (P : A → Prop) `{!∀ x, Decision (P x)}
    (l : list A) x :
  x ∈ l → P x → filter P l ≠ [].
Proof.
  intros Hx HP Hnil. eapply elem_of_nil. rewrite <-Hnil.
  by apply list_elem_of_filter.
Qed.

Lemma Hash_String_nonempty (h : v1.Hash) : v1.Hash_String h ≠ "".
Proof. unfold v1.Hash_String. by destruct (v1.Algorithm h). Qed.

(** A failed extraction returns the empty digest and the nil map. *)
Lemma digestAndClaims_error desc sp e :
  (digestAndClaims desc sp).2 = Some e →
  digestAndClaims desc sp = ("", None, Some e).
Proof.
  unfold digestAndClaims. repeat case_decide; repeat case_match; cbn;
    by intros [= ->].
Qed.

Lemma claim_errors_extraction desc annotations sp e :
  (digestAndClaims desc sp).2 = Some e →
  claim_errors desc annotations sp =
    [e; "invalid or missing digest in claim: " +:+ ""] ∧
  claim_calls desc annotations sp = [CallDigestAndClaims desc sp] ∧
  ¬ claim_accepted desc annotations sp.
Proof.
  intros Hdc%digestAndClaims_error.
  pose proof (Hash_String_nonempty (v1.Digest desc)) as Hne.
  rewrite (claim_errors_eq _ _ _ _ _ _ Hdc), (claim_calls_eq _ _ _ _ _ _ Hdc).
  rewrite (claim_accepted_eq _ _ _ _ _ _ Hdc).
  rewrite !decide_True by done. split_and!; [done|done|]. by intros [? _].
Qed.

Lemma claim_calls_head desc annotations sp :
  CallDigestAndClaims desc sp ∈ claim_calls desc annotations sp.
Proof. left. Qed.

Lemma claim_calls_inv desc annotations sp c :
  c ∈ claim_calls desc annotations sp →
  c = CallDigestAndClaims desc sp ∨
  c = CallCorrectAnnotations annotations (digestAndClaims desc sp).1.2.
Proof.
  unfold claim_calls. intros [->|Hc]%elem_of_cons; [by left|].
  case_decide; [by apply elem_of_nil in Hc|].
  apply list_elem_of_singleton in Hc. by right.
Qed.
End phase2.

(** * The claims *)

(** ** The annotation matcher *)

(** C2, as stated, fails: with the wanted annotation [env] set to the empty
    string and a claim that has no [env] key, [correctAnnotations] returns
    true although the wanted key is not present in the claim's map. *)
Lemma correctAnnotations_not_subset_check :
  ¬ (correctAnnotations (Some {[ "env" := "" ]}) (Some {[ "team" := "sec" ]})
       = true ↔
     annotations_subset (Some {[ "env" := "" ]}) (Some {[ "team" := "sec" ]})).
Proof.
  intros [Hsub _].
  specialize (Hsub eq_refl "env" "" eq_refl).
  vm_compute in Hsub. discriminate.
Qed.

(** C2 (amended): [correctAnnotations] returns true if and only if every
    wanted key is either present in the claim's map with an identical value,
    or wanted with the empty string and absent from the claim's map.
    Annotations of the claim that are not wanted are ignored, and an empty or
    nil wanted map always matches. *)
Theorem correctAnnotations_subset_up_to_empty (wanted have : GoMap) :
  (correctAnnotations wanted have = true ↔
   ∀ k v, entry wanted k = Some v →
          entry have k = Some v ∨ (v = "" ∧ entry have k = None)) ∧
  (∀ have' : GoMap,
     (∀ k, is_Some (entry wanted k) → entry have' k = entry have k) →
     correctAnnotations wanted have' = correctAnnotations wanted have) ∧
  correctAnnotations None have = true ∧
  correctAnnotations (Some ∅) have = true.
Proof.
  split_and!.
  - rewrite correctAnnotations_true. by setoid_rewrite index_eq_iff.
  - intros have' Hsame. apply eq_true_iff_eq.
    rewrite !correctAnnotations_true.
    split; intros Hall k v Hk.
    + rewrite index_entry, <-Hsame by eauto. by apply Hall.
    + rewrite index_entry, Hsame by eauto. by apply Hall.
  - done.
  - done.
Qed.

(** C10: a wanted annotation whose value is the empty string is satisfied by
    a claim whose map lacks the key or is nil: indexing yields the empty
    string there, so the entry never makes [correctAnnotations] return false
    and the result is that of the wanted map without the entry. *)
Theorem correctAnnotations_empty_value_absent_key (wanted have : GoMap)
    (k : string) :
  entry wanted k = Some "" →
  entry have k = None →
  index have k = "" ∧
  correctAnnotations wanted have =
    correctAnnotations (delete k <$> wanted) have ∧
  correctAnnotations (Some {[ k := "" ]}) have = true ∧
  correctAnnotations (Some {[ k := "" ]}) None = true.
Proof.
  intros Hw Hh.
  assert (index have k = "") as Hidx by (by rewrite index_entry, Hh).
  split_and!; [done|..].
  - apply eq_true_iff_eq. rewrite !correctAnnotations_true.
    split; intros Hall k' v.
    + rewrite entry_delete. case_decide; [done|]. apply Hall.
    + intros Hk'. destruct (decide (k = k')) as [<-|Hne].
      * congruence.
      * apply Hall. rewrite entry_delete. by rewrite decide_False.
  - apply correctAnnotations_true. intros k' v. cbn.
    intros [-> <-]%lookup_singleton_Some. done.
  - apply correctAnnotations_true. intros k' v. cbn.
    intros [-> <-]%lookup_singleton_Some. done.
Qed.

Lemma correctAnnotations_empty_value_absent_key_witness :
  entry (Some {[ "env" := ""; "team" := "sec" ]}) "env" = Some "" ∧
  entry (Some {[ "team" := "sec" ]}) "env" = None ∧
  (index (Some {[ "team" := "sec" ]}) "env" = "" ∧
   correctAnnotations (Some {[ "env" := ""; "team" := "sec" ]})
     (Some {[ "team" := "sec" ]}) =
   correctAnnotations (delete "env" <$> Some {[ "env" := ""; "team" := "sec" ]})
     (Some {[ "team" := "sec" ]}) ∧
   correctAnnotations (Some {[ "env" := "" ]}) (Some {[ "team" := "sec" ]})
     = true ∧
   correctAnnotations (Some {[ "env" := "" ]}) None = true).
Proof.
  split; [reflexivity|]. split; [reflexivity|].
  apply (correctAnnotations_empty_value_absent_key
           (Some {[ "env" := ""; "team" := "sec" ]})
           (Some {[ "team" := "sec" ]}) "env"); reflexivity.
Defined.

(** ** The claims about the orchestrator *)

Section orchestrator.
Context {env : Collaborators}.
Implicit Types (sp : SignedPayload) (signatures : list SignedPayload).
Implicit Types (desc : v1.Descriptor) (annotations : GoMap).

(** C3 (amended): if every candidate fails phase 1, [Verify] fails with the
    error ["no matching signatures:"] followed by a line feed and the
    candidates' failure messages, one per candidate and in candidate order,
    joined with a line feed followed by two spaces. Split at line feeds, the
    text is the header and then exactly one line per failed candidate: the
    first message as it is, every later one behind two spaces. *)
Theorem Verify_no_valid_signatures ref pubKey checkClaims annotations
    signatures desc :
  FetchSignatures ref = inl (signatures, desc) →
  Forall (λ sp, ¬ signature_valid pubKey sp) signatures →
  ∃ msgs : list string,
    Forall2 (λ sp m, signature_error pubKey sp = Some m) signatures msgs ∧
    result (Verify ref pubKey checkClaims annotations) =
      (None, Some ("no matching signatures:" +:+ LF +:+
                   GoStrings.Join msgs (LF +:+ "  "))) ∧
    lines ("no matching signatures:" +:+ LF +:+
           GoStrings.Join msgs (LF +:+ "  ")) =
      "no matching signatures:" ::
      match msgs with
      | [] => [""]
      | m :: ms => m :: ((λ s, "  " +:+ s) <$> ms)
      end.
Proof.
  intros Hfetch Hall.
  destruct (signature_errors_Forall2 pubKey signatures Hall) as [Hmsgs Hnil].
  exists (omap (signature_error pubKey) signatures). split_and!; [done|..].
  - rewrite (Verify_spec _ _ _ _ _ _ Hfetch), decide_True by done.
    reflexivity.
  - rewrite lines_line by done. f_equal.
    pose proof (signature_errors_one_line _ _ _ Hmsgs) as Hone.
    destruct (omap (signature_error pubKey) signatures) as [|m ms]; [done|].
    by apply lines_Join.
Qed.

(** C4: with [checkClaims = false] and at least one candidate with a valid
    signature, [Verify] returns exactly the candidates with a valid
    signature, and the only calls it makes are the signature checks:
    [digestAndClaims] and [correctAnnotations] are never called, so a valid
    candidate whose claim would be rejected is returned all the same. *)
Theorem Verify_without_claims ref pubKey annotations signatures desc :
  FetchSignatures ref = inl (signatures, desc) →
  (∃ sp, sp ∈ signatures ∧ signature_valid pubKey sp) →
  result (Verify ref pubKey false annotations) =
    (Some (filter (signature_valid pubKey) signatures), None) ∧
  calls (Verify ref pubKey false annotations) =
    map (λ sp, CallVerifySignature (Base64Signature sp) (Payload sp))
      signatures ∧
  (∀ d sp, CallDigestAndClaims d sp ∉
             calls (Verify ref pubKey false annotations)) ∧
  (∀ wanted have, CallCorrectAnnotations wanted have ∉
                    calls (Verify ref pubKey false annotations)) ∧
  (∀ sp, sp ∈ signatures → signature_valid pubKey sp →
         ¬ claim_accepted desc annotations sp →
         sp ∈ filter (signature_valid pubKey) signatures).
Proof.
  intros Hfetch (sp0 & Hin & Hvalid).
  assert (filter (signature_valid pubKey) signatures ≠ []) as Hne.
  { intros Hnil. eapply elem_of_nil. rewrite <-Hnil.
    apply list_elem_of_filter; eauto. }
  rewrite (Verify_spec _ _ _ _ _ _ Hfetch), decide_False by done.
  unfold result, calls. cbn [negb fst snd]. rewrite decide_False by done.
  rewrite app_nil_r. split_and!; [done|done|..].
  - intros d sp (sp' & [=] & _)%list_elem_of_fmap.
  - intros w h (sp' & [=] & _)%list_elem_of_fmap.
  - intros sp Hsp Hok _. by apply list_elem_of_filter.
Qed.

(** C7: whenever [Verify] returns a list, after phase 1 alone or after both
    phases, that list is a subsequence of the candidate list: the surviving
    items keep their relative candidate order. *)
Theorem Verify_survivors_in_candidate_order ref pubKey checkClaims
    annotations signatures desc survivors :
  FetchSignatures ref = inl (signatures, desc) →
  (result (Verify ref pubKey checkClaims annotations)).1 = Some survivors →
  survivors `sublist_of` signatures.
Proof.
  intros Hfetch. rewrite (Verify_spec _ _ _ _ _ _ Hfetch).
  unfold result. cbn [fst].
  case_decide; [done|].
  destruct checkClaims; cbn [negb].
  - rewrite verifyClaims_spec. cbn [fst]. case_decide; [done|].
    intros [= <-]. etrans; apply sublist_filter.
  - intros [= <-]. apply sublist_filter.
Qed.

(** C9: [Verify] returns either a non-empty list and no error, or an error
    and no list; with an empty candidate list it returns the error
    ["no matching signatures:"] with nothing after the line feed. *)
Theorem Verify_list_or_error ref pubKey checkClaims annotations :
  ((∃ survivors, survivors ≠ [] ∧
      result (Verify ref pubKey checkClaims annotations) =
        (Some survivors, None)) ∨
   (∃ err, result (Verify ref pubKey checkClaims annotations) =
             (None, Some err))) ∧
  (∀ desc, FetchSignatures ref = inl ([], desc) →
     result (Verify ref pubKey checkClaims annotations) =
       (None, Some ("no matching signatures:" +:+ LF))).
Proof.
  split.
  - destruct (FetchSignatures ref) as [[signatures desc]|err] eqn:Hfetch.
    + rewrite (Verify_spec _ _ _ _ _ _ Hfetch). unfold result. cbn [fst].
      case_decide; [right; eauto|].
      destruct checkClaims; cbn [negb]; [|left; eauto].
      rewrite verifyClaims_spec. cbn [fst].
      case_decide; [right; eauto | left; eauto].
    + rewrite (Verify_fetch_error _ _ _ _ _ Hfetch). right. eauto.
  - intros desc Hfetch.
    by rewrite (Verify_spec _ _ _ _ _ _ Hfetch).
Qed.
End orchestrator.

(** ** The claims about phase 2 *)

Section claims_phase2.
Context {env : Collaborators}.
Implicit Types (sp : SignedPayload) (signatures : list SignedPayload).
Implicit Types (desc : v1.Descriptor) (annotations : GoMap).

(** C1: in the loop of [verifyClaims] every survivor of phase 1 is examined,
    whatever happened to the items before it. A survivor whose extraction
    fails has that error recorded and is dropped. A survivor whose
    extraction succeeds and whose digest or annotations do not match has a
    message with the found digest, or with the found annotations, recorded
    and is dropped. Every other survivor is kept, and [verifyClaims] returns
    the kept items unless there are none, in which case it returns the
    report of the recorded messages. *)
Theorem verifyClaims_per_item desc annotations survivors verified errs trace :
  verifyClaims_loop desc annotations survivors [] [] =
    (verified, errs, trace) →
  (∀ sp, sp ∈ survivors → CallDigestAndClaims desc sp ∈ trace) ∧
  (∀ sp e, sp ∈ survivors →
     (digestAndClaims desc sp).2 = Some e →
     e ∈ errs ∧ sp ∉ verified) ∧
  (∀ sp d a, sp ∈ survivors →
     digestAndClaims desc sp = (d, a, None) →
     d ≠ v1.Hash_String (v1.Digest desc) →
     ("invalid or missing digest in claim: " +:+ d) ∈ errs ∧
     sp ∉ verified) ∧
  (∀ sp d a, sp ∈ survivors →
     digestAndClaims desc sp = (d, a, None) →
     d = v1.Hash_String (v1.Digest desc) →
     correctAnnotations annotations a = false →
     ("invalid or missing annotation in claim: " +:+ Sprint_map a) ∈ errs ∧
     sp ∉ verified) ∧
  (∀ sp d a, sp ∈ survivors →
     digestAndClaims desc sp = (d, a, None) →
     d = v1.Hash_String (v1.Digest desc) →
     correctAnnotations annotations a = true →
     sp ∈ verified) ∧
  result (verifyClaims desc annotations survivors) =
    (if decide (verified = []) then
       (None, Some ("no matching claims:" +:+ LF +:+
                    GoStrings.Join errs (LF +:+ "  ")))
     else (Some verified, None)).
Proof.
  rewrite verifyClaims_loop_spec. cbn [app]. intros [= <- <- <-].
  split_and!; [..|by rewrite verifyClaims_spec].
  - intros sp Hsp. eapply elem_of_concat_map; [done|].
    apply claim_calls_head.
  - intros sp e Hsp He.
    destruct (claim_errors_extraction desc annotations sp e He)
      as (Herrs & _ & Hrej).
    split.
    + eapply elem_of_concat_map; [done|]. rewrite Herrs. left.
    + by intros [? _]%list_elem_of_filter.
  - intros sp d a Hsp Hdc Hne. split.
    + eapply elem_of_concat_map; [done|].
      rewrite (claim_errors_eq _ _ _ _ _ _ Hdc), decide_True by done. left.
    + intros [Hacc _]%list_elem_of_filter.
      apply (claim_accepted_eq _ _ _ _ _ _ Hdc) in Hacc as [? _]. done.
  - intros sp d a Hsp Hdc Heq Hbad. split.
    + eapply elem_of_concat_map; [done|].
      rewrite (claim_errors_eq _ _ _ _ _ _ Hdc).
      rewrite decide_False by (by intros ?). rewrite Hbad. left.
    + intros [Hacc _]%list_elem_of_filter.
      apply (claim_accepted_eq _ _ _ _ _ _ Hdc) in Hacc as [_ ?].
      congruence.
  - intros sp d a Hsp Hdc Heq Hok.
    apply list_elem_of_filter. split; [|done].
    by apply (claim_accepted_eq _ _ _ _ _ _ Hdc).
Qed.

(** C5: [digestAndClaims] decodes the payload as a descriptor (digest and
    annotations) for the OCI manifest media type and as a simple-signing
    document (docker-manifest-digest and optional map) for the
    simple-signing media type; a decode error is returned as it is; any
    other media type gives an "unexpected mediaType" error, so success is
    only possible for the two media types. In the loop of [verifyClaims]
    such an error is one item's failure: it is recorded, the items after it
    are examined, and the kept items are those kept without that item. *)
Theorem digestAndClaims_formats desc sp :
  (v1.MediaType desc = types.OCIManifestSchema1 →
   digestAndClaims desc sp =
     match Unmarshal_Descriptor (Payload sp) with
     | inl d => (v1.Hash_String (v1.Digest d), v1.Annotations d, None)
     | inr err => ("", None, Some err)
     end) ∧
  (v1.MediaType desc = "application/vnd.dev.cosign.simplesigning.v1+json" →
   digestAndClaims desc sp =
     match Unmarshal_SimpleSigning (Payload sp) with
     | inl ss =>
         (DockerManifestDigest (Critical_Image (SimpleSigning_Critical ss)),
          Optional ss, None)
     | inr err => ("", None, Some err)
     end) ∧
  (v1.MediaType desc ≠ types.OCIManifestSchema1 →
   v1.MediaType desc ≠ "application/vnd.dev.cosign.simplesigning.v1+json" →
   digestAndClaims desc sp =
     ("", None,
      Some ("unexpected mediaType for " +:+ v1.Hash_String (v1.Digest desc)
            +:+ ": " +:+ v1.MediaType desc))) ∧
  ((digestAndClaims desc sp).2 = None →
   v1.MediaType desc = types.OCIManifestSchema1 ∨
   v1.MediaType desc = "application/vnd.dev.cosign.simplesigning.v1+json") ∧
  (∀ annotations before after e,
     (digestAndClaims desc sp).2 = Some e →
     e ∈ (result (verifyClaims_loop desc annotations
                    (before ++ sp :: after) [] [])).2 ∧
     (∀ sp', sp' ∈ after →
        CallDigestAndClaims desc sp' ∈
          calls (verifyClaims_loop desc annotations
                   (before ++ sp :: after) [] [])) ∧
     (result (verifyClaims_loop desc annotations
                (before ++ sp :: after) [] [])).1 =
     (result (verifyClaims_loop desc annotations
                (before ++ after) [] [])).1).
Proof.
  split_and!.
  - intros Hmt. unfold digestAndClaims. rewrite decide_True by done.
    by destruct (Unmarshal_Descriptor _).
  - intros Hmt. unfold digestAndClaims.
    rewrite decide_False by (by rewrite Hmt).
    rewrite decide_True by done. by destruct (Unmarshal_SimpleSigning _).
  - intros Hoci Hsimple. unfold digestAndClaims.
    by rewrite !decide_False by done.
  - unfold digestAndClaims. repeat case_decide; auto. done.
  - intros annotations before after e He.
    destruct (claim_errors_extraction desc annotations sp e He)
      as (Herrs & _ & Hrej).
    rewrite !verifyClaims_loop_spec. unfold result, calls. cbn [fst snd app].
    split_and!.
    + eapply elem_of_concat_map;
        [apply elem_of_app; right; left|]. rewrite Herrs. left.
    + intros sp' Hsp'. eapply elem_of_concat_map;
        [apply elem_of_app; right; by right|]. apply claim_calls_head.
    + rewrite !filter_app. by rewrite filter_cons_False.
Qed.

(** C8: an item is kept by [verifyClaims] only if its extracted digest is,
    as a string, equal to the descriptor's digest string. A survivor whose
    extracted digest differs is dropped and a message ending in that digest
    is recorded. If this happens to every survivor, [Verify] fails with
    ["no matching claims:"] followed by the recorded messages. *)
Theorem verifyClaims_digest_exact ref pubKey annotations signatures desc
    verified errs trace :
  FetchSignatures ref = inl (signatures, desc) →
  verifyClaims_loop desc annotations
    (filter (signature_valid pubKey) signatures) [] [] =
    (verified, errs, trace) →
  (∀ sp, sp ∈ verified →
     (digestAndClaims desc sp).1.1 = v1.Hash_String (v1.Digest desc)) ∧
  (∀ sp, sp ∈ signatures → signature_valid pubKey sp →
     (digestAndClaims desc sp).1.1 ≠ v1.Hash_String (v1.Digest desc) →
     ("invalid or missing digest in claim: " +:+
      (digestAndClaims desc sp).1.1) ∈ errs ∧
     sp ∉ verified) ∧
  ((∃ sp, sp ∈ signatures ∧ signature_valid pubKey sp) →
   (∀ sp, sp ∈ signatures → signature_valid pubKey sp →
      (digestAndClaims desc sp).1.1 ≠ v1.Hash_String (v1.Digest desc)) →
   result (Verify ref pubKey true annotations) =
     (None, Some ("no matching claims:" +:+ LF +:+
                  GoStrings.Join errs (LF +:+ "  ")))).
Proof.
  intros Hfetch. rewrite verifyClaims_loop_spec. cbn [app].
  intros [= <- <- <-]. split_and!.
  - by intros sp [[? _] _]%list_elem_of_filter.
  - intros sp Hsp Hvalid Hne. split.
    + eapply elem_of_concat_map; [by apply list_elem_of_filter|].
      destruct (digestAndClaims desc sp) as [[d a] err] eqn:Hdc.
      rewrite (claim_errors_eq _ _ _ _ _ _ Hdc), decide_True by done.
      apply elem_of_app. right. left.
    + by intros [[? _] _]%list_elem_of_filter.
  - intros (sp0 & Hin & Hvalid) Hall.
    assert (filter (signature_valid pubKey) signatures ≠ []) as Hne.
    { intros Hnil. eapply elem_of_nil. rewrite <-Hnil.
      apply list_elem_of_filter; eauto. }
    rewrite (Verify_spec _ _ _ _ _ _ Hfetch), decide_False by done.
    unfold result. cbn [negb fst]. rewrite verifyClaims_spec. cbn [fst].
    rewrite decide_True; [done|].
    apply filter_nil_Forall, Forall_forall.
    intros sp [Hvalid' Hsp]%list_elem_of_filter [Heq _].
    by apply (Hall sp).
Qed.

(** C6: every call of [digestAndClaims] that [Verify] makes is on a
    candidate whose signature is valid, and every call of
    [correctAnnotations] is on the annotations extracted from such a
    candidate; a candidate that fails phase 1 is never examined. With
    [checkClaims] set and a media type that is not recognized, every
    survivor is still examined and leaves its own two messages; the call
    ends with the report ["no matching claims:"] of all of them, not
    with the first item's error. *)
Theorem Verify_phase2_only_survivors ref pubKey checkClaims annotations
    signatures desc :
  FetchSignatures ref = inl (signatures, desc) →
  (∀ d sp, CallDigestAndClaims d sp ∈
             calls (Verify ref pubKey checkClaims annotations) →
     d = desc ∧ sp ∈ signatures ∧ signature_valid pubKey sp) ∧
  (∀ wanted have, CallCorrectAnnotations wanted have ∈
                    calls (Verify ref pubKey checkClaims annotations) →
     wanted = annotations ∧
     ∃ sp, sp ∈ signatures ∧ signature_valid pubKey sp ∧
           have = (digestAndClaims desc sp).1.2) ∧
  (∀ d sp, sp ∈ signatures → ¬ signature_valid pubKey sp →
     CallDigestAndClaims d sp ∉
       calls (Verify ref pubKey checkClaims annotations)) ∧
  (checkClaims = true →
   v1.MediaType desc ≠ types.OCIManifestSchema1 →
   v1.MediaType desc ≠ "application/vnd.dev.cosign.simplesigning.v1+json" →
   (∀ sp, sp ∈ signatures → signature_valid pubKey sp →
      CallDigestAndClaims desc sp ∈
        calls (Verify ref pubKey checkClaims annotations)) ∧
   ((∃ sp, sp ∈ signatures ∧ signature_valid pubKey sp) →
    result (Verify ref pubKey checkClaims annotations) =
      (None,
       Some ("no matching claims:" +:+ LF +:+
             GoStrings.Join
               (concat
                  (map (λ _ : SignedPayload,
                          ["unexpected mediaType for " +:+
                             v1.Hash_String (v1.Digest desc) +:+ ": " +:+
                             v1.MediaType desc;
                           "invalid or missing digest in claim: " +:+ ""])
                     (filter (signature_valid pubKey) signatures)))
               (LF +:+ "  "))))).
Proof.
  intros Hfetch.
  assert (∀ c, c ∈ calls (Verify ref pubKey checkClaims annotations) →
            (∃ sp, c = CallVerifySignature (Base64Signature sp) (Payload sp)) ∨
            (∃ sp, sp ∈ signatures ∧ signature_valid pubKey sp ∧
                   c ∈ claim_calls desc annotations sp)) as Hcalls.
  { intros c. rewrite (Verify_spec _ _ _ _ _ _ Hfetch). unfold calls.
    cbn [snd]. intros [Hc|Hc]%elem_of_app.
    - apply list_elem_of_fmap in Hc as (sp & -> & _). left. eauto.
    - repeat case_match; try by apply elem_of_nil in Hc.
      rewrite verifyClaims_spec in Hc. cbn [snd] in Hc.
      apply elem_of_concat_map_inv in Hc as (sp & Hsp & Hc).
      apply list_elem_of_filter in Hsp as [? ?]. right. eauto. }
  assert (∀ d sp, CallDigestAndClaims d sp ∈
                    calls (Verify ref pubKey checkClaims annotations) →
            d = desc ∧ sp ∈ signatures ∧ signature_valid pubKey sp) as Hdac.
  { intros d sp [[sp' [=]]|(sp' & Hin & Hvalid & Hc)]%Hcalls.
    by apply claim_calls_inv in Hc as [[= -> ->]|[=]]. }
  split_and!; [done|..].
  - intros w h [[sp' [=]]|(sp' & Hin & Hvalid & Hc)]%Hcalls.
    apply claim_calls_inv in Hc as [[=]|[= -> ->]]. eauto.
  - intros d sp _ Hinvalid Hc. by apply Hdac in Hc as (_ & _ & ?).
  - intros -> Hoci Hsimple. split.
    + intros sp Hsp Hvalid.
      rewrite (Verify_spec _ _ _ _ _ _ Hfetch). unfold calls. cbn [snd negb].
      apply elem_of_app. right.
      rewrite decide_False.
      * rewrite verifyClaims_spec. cbn [snd].
        eapply elem_of_concat_map; [by apply list_elem_of_filter|].
        apply claim_calls_head.
      * intros Hnil. eapply elem_of_nil. rewrite <-Hnil.
        apply list_elem_of_filter; eauto.
    + intros (sp0 & Hin & Hvalid).
      assert (∀ sp, (digestAndClaims desc sp).2 =
                Some ("unexpected mediaType for " +:+
                      v1.Hash_String (v1.Digest desc) +:+ ": " +:+
                      v1.MediaType desc)) as Hext.
      { intros sp. unfold digestAndClaims.
        by rewrite !decide_False by done. }
      rewrite (Verify_spec _ _ _ _ _ _ Hfetch). unfold result. cbn [fst negb].
      rewrite decide_False.
      2:{ intros Hnil. eapply elem_of_nil. rewrite <-Hnil.
          apply list_elem_of_filter; eauto. }
      rewrite verifyClaims_spec. cbn [fst].
      rewrite decide_True.
      2:{ apply filter_nil_Forall, Forall_forall. intros sp _.
          by destruct (claim_errors_extraction desc annotations sp _
                         (Hext sp)) as (_ & _ & ?). }
      rewrite (map_ext (claim_errors desc annotations)
                 (λ _, ["unexpected mediaType for " +:+
                          v1.Hash_String (v1.Digest desc) +:+ ": " +:+
                          v1.MediaType desc;
                        "invalid or missing digest in claim: " +:+ ""]));
        [done|].
      intros sp.
      by destruct (claim_errors_extraction desc annotations sp _ (Hext sp))
        as (-> & _ & _).
Qed.
End claims_phase2.

(** ** The claims on the concrete world *)

Lemma Verify_no_valid_signatures_witness :
  @FetchSignatures Scenario.all_rejected tt =
    inl (Scenario.rejected, Scenario.desc) ∧
  Forall (λ sp, ¬ signature_valid (env := Scenario.all_rejected)
                    Scenario.key sp) Scenario.rejected ∧
  ∃ msgs : list string,
    Forall2 (λ sp m, signature_error (env := Scenario.all_rejected)
                       Scenario.key sp = Some m) Scenario.rejected msgs ∧
    result (Verify (env := Scenario.all_rejected) tt Scenario.key true None) =
      (None, Some ("no matching signatures:" +:+ LF +:+
                   GoStrings.Join msgs (LF +:+ "  "))) ∧
    lines ("no matching signatures:" +:+ LF +:+
           GoStrings.Join msgs (LF +:+ "  ")) =
      "no matching signatures:" ::
      match msgs with
      | [] => [""]
      | m :: ms => m :: ((λ s, "  " +:+ s) <$> ms)
      end.
Proof.
  split; [reflexivity|].
  assert (Forall (λ sp, ¬ signature_valid (env := Scenario.all_rejected)
                          Scenario.key sp) Scenario.rejected) as Hall.
  { repeat constructor; vm_compute; discriminate. }
  split; [exact Hall|].
  apply (Verify_no_valid_signatures (env := Scenario.all_rejected)
           tt Scenario.key true None Scenario.rejected Scenario.desc);
    [reflexivity | exact Hall].
Defined.

(** C3, as stated, fails: with two candidates that both fail phase 1, the
    error text is not the header followed by the two failure messages joined
    with a line feed; the second message is behind two spaces. *)
Lemma Verify_report_not_newline_joined :
  Forall (λ sp, ¬ signature_valid (env := Scenario.all_rejected)
                    Scenario.key sp) Scenario.rejected ∧
  ¬ ∃ msgs : list string,
      Forall2 (λ sp m, signature_error (env := Scenario.all_rejected)
                         Scenario.key sp = Some m) Scenario.rejected msgs ∧
      result (Verify (env := Scenario.all_rejected) tt Scenario.key true
                None) =
        (None, Some ("no matching signatures:" +:+ LF +:+
                     GoStrings.Join msgs LF)).
Proof.
  split; [repeat constructor; vm_compute; discriminate|].
  intros (msgs & Hmsgs & Hresult).
  apply Forall2_cons_inv_l in Hmsgs as (m1 & msgs1 & Hm1 & Hmsgs & ->).
  apply Forall2_cons_inv_l in Hmsgs as (m2 & msgs2 & Hm2 & Hmsgs & ->).
  apply Forall2_nil_inv_l in Hmsgs as ->.
  vm_compute in Hm1, Hm2. injection Hm1 as <-. injection Hm2 as <-.
  vm_compute in Hresult. discriminate.
Qed.

Lemma Verify_without_claims_witness :
  @FetchSignatures Scenario.mixed tt =
    inl (Scenario.candidates, Scenario.desc) ∧
  (∃ sp, sp ∈ Scenario.candidates ∧
         signature_valid (env := Scenario.mixed) Scenario.key sp) ∧
  (result (Verify (env := Scenario.mixed) tt Scenario.key false
             Scenario.wanted) =
     (Some (filter (signature_valid (env := Scenario.mixed) Scenario.key)
              Scenario.candidates), None) ∧
   calls (Verify (env := Scenario.mixed) tt Scenario.key false
            Scenario.wanted) =
     map (λ sp, CallVerifySignature (Base64Signature sp) (Payload sp))
       Scenario.candidates ∧
   (∀ d sp, CallDigestAndClaims d sp ∉
              calls (Verify (env := Scenario.mixed) tt Scenario.key false
                       Scenario.wanted)) ∧
   (∀ wanted have, CallCorrectAnnotations wanted have ∉
                     calls (Verify (env := Scenario.mixed) tt Scenario.key
                              false Scenario.wanted)) ∧
   (∀ sp, sp ∈ Scenario.candidates →
          signature_valid (env := Scenario.mixed) Scenario.key sp →
          ¬ claim_accepted (env := Scenario.mixed) Scenario.desc
              Scenario.wanted sp →
          sp ∈ filter (signature_valid (env := Scenario.mixed) Scenario.key)
                 Scenario.candidates)).
Proof.
  split; [reflexivity|].
  assert (∃ sp, sp ∈ Scenario.candidates ∧
                signature_valid (env := Scenario.mixed) Scenario.key sp)
    as Hsome.
  { exists (Scenario.signed ""). split; [|reflexivity].
    unfold Scenario.candidates. do 3 right. left. }
  split; [exact Hsome|].
  apply (Verify_without_claims (env := Scenario.mixed) tt Scenario.key
           Scenario.wanted Scenario.candidates Scenario.desc);
    [reflexivity | exact Hsome].
Defined.

(** The candidate with the empty payload, which no format decodes, is among
    the four that are returned when claims are not checked. *)
Example Verify_without_claims_returns_malformed :
  result (Verify (env := Scenario.mixed) tt Scenario.key false
            Scenario.wanted) = (Some Scenario.survivors, None) ∧
  (digestAndClaims (env := Scenario.mixed) Scenario.desc
     (Scenario.signed "")).2 = Some "unexpected end of JSON input".
Proof. split; reflexivity. Qed.

Lemma Verify_survivors_in_candidate_order_witness :
  @FetchSignatures Scenario.mixed tt =
    inl (Scenario.candidates, Scenario.desc) ∧
  (result (Verify (env := Scenario.mixed) tt Scenario.key true
             Scenario.wanted)).1 = Some [Scenario.signed "asha256:abc"] ∧
  [Scenario.signed "asha256:abc"] `sublist_of` Scenario.candidates.
Proof.
  split; [reflexivity|]. split; [reflexivity|].
  apply (Verify_survivors_in_candidate_order (env := Scenario.mixed) tt
           Scenario.key true Scenario.wanted Scenario.candidates
           Scenario.desc); reflexivity.
Defined.

Lemma verifyClaims_per_item_witness :
  verifyClaims_loop (env := Scenario.mixed) Scenario.desc Scenario.wanted
    Scenario.survivors [] [] =
    ([Scenario.signed "asha256:abc"],
     ["invalid or missing annotation in claim: map[]";
      "unexpected end of JSON input";
      "invalid or missing digest in claim: ";
      "invalid or missing digest in claim: sha256:def"],
     [CallDigestAndClaims Scenario.desc (Scenario.signed "-sha256:abc");
      CallCorrectAnnotations Scenario.wanted None;
      CallDigestAndClaims Scenario.desc (Scenario.signed "");
      CallDigestAndClaims Scenario.desc (Scenario.signed "asha256:abc");
      CallCorrectAnnotations Scenario.wanted Scenario.wanted;
      CallDigestAndClaims Scenario.desc (Scenario.signed "-sha256:def")]) ∧
  ((∀ sp, sp ∈ Scenario.survivors →
      CallDigestAndClaims Scenario.desc sp ∈
        [CallDigestAndClaims Scenario.desc (Scenario.signed "-sha256:abc");
         CallCorrectAnnotations Scenario.wanted None;
         CallDigestAndClaims Scenario.desc (Scenario.signed "");
         CallDigestAndClaims Scenario.desc (Scenario.signed "asha256:abc");
         CallCorrectAnnotations Scenario.wanted Scenario.wanted;
         CallDigestAndClaims Scenario.desc (Scenario.signed "-sha256:def")]) ∧
   (∀ sp e, sp ∈ Scenario.survivors →
      (digestAndClaims (env := Scenario.mixed) Scenario.desc sp).2 = Some e →
      e ∈ ["invalid or missing annotation in claim: map[]";
           "unexpected end of JSON input";
           "invalid or missing digest in claim: ";
           "invalid or missing digest in claim: sha256:def"] ∧
      sp ∉ [Scenario.signed "asha256:abc"]) ∧
   (∀ sp d a, sp ∈ Scenario.survivors →
      digestAndClaims (env := Scenario.mixed) Scenario.desc sp =
        (d, a, None) →
      d ≠ v1.Hash_String (v1.Digest Scenario.desc) →
      ("invalid or missing digest in claim: " +:+ d) ∈
        ["invalid or missing annotation in claim: map[]";
         "unexpected end of JSON input";
         "invalid or missing digest in claim: ";
         "invalid or missing digest in claim: sha256:def"] ∧
      sp ∉ [Scenario.signed "asha256:abc"]) ∧
   (∀ sp d a, sp ∈ Scenario.survivors →
      digestAndClaims (env := Scenario.mixed) Scenario.desc sp =
        (d, a, None) →
      d = v1.Hash_String (v1.Digest Scenario.desc) →
      correctAnnotations Scenario.wanted a = false →
      ("invalid or missing annotation in claim: " +:+
       Sprint_map (Collaborators := Scenario.mixed) a) ∈
        ["invalid or missing annotation in claim: map[]";
         "unexpected end of JSON input";
         "invalid or missing digest in claim: ";
         "invalid or missing digest in claim: sha256:def"] ∧
      sp ∉ [Scenario.signed "asha256:abc"]) ∧
   (∀ sp d a, sp ∈ Scenario.survivors →
      digestAndClaims (env := Scenario.mixed) Scenario.desc sp =
        (d, a, None) →
      d = v1.Hash_String (v1.Digest Scenario.desc) →
      correctAnnotations Scenario.wanted a = true →
      sp ∈ [Scenario.signed "asha256:abc"]) ∧
   result (verifyClaims (env := Scenario.mixed) Scenario.desc Scenario.wanted
             Scenario.survivors) =
     (if decide ([Scenario.signed "asha256:abc"] = []) then
        (None, Some ("no matching claims:" +:+ LF +:+
                     GoStrings.Join
                       ["invalid or missing annotation in claim: map[]";
                        "unexpected end of JSON input";
                        "invalid or missing digest in claim: ";
                        "invalid or missing digest in claim: sha256:def"]
                       (LF +:+ "  ")))
      else (Some [Scenario.signed "asha256:abc"], None))).
Proof.
  split; [reflexivity|].
  apply (verifyClaims_per_item (env := Scenario.mixed) Scenario.desc
           Scenario.wanted Scenario.survivors).
  reflexivity.
Defined.

Lemma verifyClaims_digest_exact_witness :
  @FetchSignatures Scenario.other_digests tt =
    inl (Scenario.others, Scenario.desc) ∧
  verifyClaims_loop (env := Scenario.other_digests) Scenario.desc None
    (filter (signature_valid (env := Scenario.other_digests) Scenario.key)
       Scenario.others) [] [] =
    ([],
     ["invalid or missing digest in claim: SHA256:abc";
      "invalid or missing digest in claim: sha256:def"],
     [CallDigestAndClaims Scenario.desc (Scenario.signed "-SHA256:abc");
      CallDigestAndClaims Scenario.desc (Scenario.signed "-sha256:def")]) ∧
  ((∀ sp, sp ∈ [] →
      (digestAndClaims (env := Scenario.other_digests) Scenario.desc sp).1.1 =
        v1.Hash_String (v1.Digest Scenario.desc)) ∧
   (∀ sp, sp ∈ Scenario.others →
      signature_valid (env := Scenario.other_digests) Scenario.key sp →
      (digestAndClaims (env := Scenario.other_digests) Scenario.desc sp).1.1 ≠
        v1.Hash_String (v1.Digest Scenario.desc) →
      ("invalid or missing digest in claim: " +:+
       (digestAndClaims (env := Scenario.other_digests) Scenario.desc sp).1.1)
        ∈ ["invalid or missing digest in claim: SHA256:abc";
           "invalid or missing digest in claim: sha256:def"] ∧
      sp ∉ []) ∧
   ((∃ sp, sp ∈ Scenario.others ∧
           signature_valid (env := Scenario.other_digests) Scenario.key sp) →
    (∀ sp, sp ∈ Scenario.others →
       signature_valid (env := Scenario.other_digests) Scenario.key sp →
       (digestAndClaims (env := Scenario.other_digests) Scenario.desc sp).1.1 ≠
         v1.Hash_String (v1.Digest Scenario.desc)) →
    result (Verify (env := Scenario.other_digests) tt Scenario.key true None) =
      (None, Some ("no matching claims:" +:+ LF +:+
                   GoStrings.Join
                     ["invalid or missing digest in claim: SHA256:abc";
                      "invalid or missing digest in claim: sha256:def"]
                     (LF +:+ "  "))))).
Proof.
  split; [reflexivity|]. split; [reflexivity|].
  apply (verifyClaims_digest_exact (env := Scenario.other_digests) tt
           Scenario.key None Scenario.others Scenario.desc _ _
           [CallDigestAndClaims Scenario.desc (Scenario.signed "-SHA256:abc");
            CallDigestAndClaims Scenario.desc (Scenario.signed "-sha256:def")]);
    reflexivity.
Defined.

(** The spec's example: a candidate asserting another digest, alone, makes
    the call fail with a report that names that digest; and a digest that
    differs from the descriptor's only in the case of its algorithm is
    another digest. *)
Example Verify_other_digest :
  result (Verify (env := Scenario.world [Scenario.signed "-sha256:def"]
                           Scenario.desc) tt Scenario.key true None) =
    (None, Some ("no matching claims:" +:+ LF +:+
                 "invalid or missing digest in claim: sha256:def")) ∧
  result (Verify (env := Scenario.world [Scenario.signed "-SHA256:abc"]
                           Scenario.desc) tt Scenario.key true None) =
    (None, Some ("no matching claims:" +:+ LF +:+
                 "invalid or missing digest in claim: SHA256:abc")) ∧
  result (Verify (env := Scenario.world [Scenario.signed "-sha256:abc"]
                           Scenario.desc) tt Scenario.key true None) =
    (Some [Scenario.signed "-sha256:abc"], None).
Proof. split_and!; reflexivity. Qed.

Lemma Verify_phase2_only_survivors_witness :
  @FetchSignatures Scenario.unknown_format tt =
    inl (Scenario.candidates, Scenario.other_desc "abc") ∧
  ((∀ d sp, CallDigestAndClaims d sp ∈
              calls (Verify (env := Scenario.unknown_format) tt Scenario.key
                       true None) →
      d = Scenario.other_desc "abc" ∧ sp ∈ Scenario.candidates ∧
      signature_valid (env := Scenario.unknown_format) Scenario.key sp) ∧
   (∀ wanted have, CallCorrectAnnotations wanted have ∈
                     calls (Verify (env := Scenario.unknown_format) tt
                              Scenario.key true None) →
      wanted = None ∧
      ∃ sp, sp ∈ Scenario.candidates ∧
            signature_valid (env := Scenario.unknown_format) Scenario.key sp ∧
            have = (digestAndClaims (env := Scenario.unknown_format)
                      (Scenario.other_desc "abc") sp).1.2) ∧
   (∀ d sp, sp ∈ Scenario.candidates →
      ¬ signature_valid (env := Scenario.unknown_format) Scenario.key sp →
      CallDigestAndClaims d sp ∉
        calls (Verify (env := Scenario.unknown_format) tt Scenario.key true
                 None)) ∧
   (true = true →
    v1.MediaType (Scenario.other_desc "abc") ≠ types.OCIManifestSchema1 →
    v1.MediaType (Scenario.other_desc "abc") ≠
      "application/vnd.dev.cosign.simplesigning.v1+json" →
    (∀ sp, sp ∈ Scenario.candidates →
       signature_valid (env := Scenario.unknown_format) Scenario.key sp →
       CallDigestAndClaims (Scenario.other_desc "abc") sp ∈
         calls (Verify (env := Scenario.unknown_format) tt Scenario.key true
                  None)) ∧
    ((∃ sp, sp ∈ Scenario.candidates ∧
            signature_valid (env := Scenario.unknown_format) Scenario.key sp) →
     result (Verify (env := Scenario.unknown_format) tt Scenario.key true
               None) =
       (None,
        Some ("no matching claims:" +:+ LF +:+
              GoStrings.Join
                (concat
                   (map (λ _ : SignedPayload,
                           ["unexpected mediaType for " +:+
                              v1.Hash_String
                                (v1.Digest (Scenario.other_desc "abc")) +:+
                              ": " +:+
                              v1.MediaType (Scenario.other_desc "abc");
                            "invalid or missing digest in claim: " +:+ ""])
                      (filter (signature_valid (env := Scenario.unknown_format)
                                 Scenario.key) Scenario.candidates)))
                (LF +:+ "  ")))))).
Proof.
  split; [reflexivity|].
  apply (Verify_phase2_only_survivors (env := Scenario.unknown_format) tt
           Scenario.key true None Scenario.candidates
           (Scenario.other_desc "abc")).
  reflexivity.
Defined.

(** Under the unknown media type the two candidates with an invalid
    signature are not examined, the four others each are, and the call ends
    with the report of their failures. *)
Example Verify_unknown_format :
  calls (Verify (env := Scenario.unknown_format) tt Scenario.key true None) =
    ((λ sp, CallVerifySignature (Base64Signature sp) (Payload sp)) <$>
       Scenario.candidates) ++
    (CallDigestAndClaims (Scenario.other_desc "abc") <$> Scenario.survivors) ∧
  result (Verify (env := Scenario.unknown_format) tt Scenario.key true None) =
    (None,
     Some ("no matching claims:" +:+ LF +:+
           "unexpected mediaType for sha256:abc: text/plain" +:+ LF +:+
           "  invalid or missing digest in claim: " +:+ LF +:+
           "  unexpected mediaType for sha256:abc: text/plain" +:+ LF +:+
           "  invalid or missing digest in claim: " +:+ LF +:+
           "  unexpected mediaType for sha256:abc: text/plain" +:+ LF +:+
           "  invalid or missing digest in claim: " +:+ LF +:+
           "  unexpected mediaType for sha256:abc: text/plain" +:+ LF +:+
           "  invalid or missing digest in claim: ")).
Proof. split; reflexivity. Qed.

(** With no candidate at all the call fails, whether claims are checked or
    not. *)
Example Verify_no_candidates :
  result (Verify (env := Scenario.world [] Scenario.desc) tt Scenario.key
            true None) =
    (None, Some ("no matching signatures:" +:+ LF)) ∧
  result (Verify (env := Scenario.world [] Scenario.desc) tt Scenario.key
            false None) =
    (None, Some ("no matching signatures:" +:+ LF)).
Proof. split; reflexivity. Qed.

(** The same payload under the three kinds of descriptor, and the empty
    payload under a recognized one. *)
Example digestAndClaims_by_media_type :
  digestAndClaims (env := Scenario.mixed) (Scenario.simple_desc "abc")
    (Scenario.signed "asha256:abc") =
    ("sha256:abc", Scenario.wanted, None) ∧
  digestAndClaims (env := Scenario.mixed) (Scenario.oci_desc "abc")
    (Scenario.signed "aabc") =
    ("sha256:abc", Scenario.wanted, None) ∧
  digestAndClaims (env := Scenario.mixed) (Scenario.other_desc "abc")
    (Scenario.signed "asha256:abc") =
    ("", None, Some "unexpected mediaType for sha256:abc: text/plain") ∧
  digestAndClaims (env := Scenario.mixed) (Scenario.oci_desc "abc")
    (Scenario.signed "") =
    ("", None, Some "unexpected end of JSON input").
Proof. split_and!; reflexivity. Qed.

(** A claim with more annotations than wanted matches; another value for a
    wanted key does not; a wanted key that the claim lacks does not match
    unless it is wanted with the empty string. *)
Example correctAnnotations_on_maps :
  correctAnnotations (Some {[ "env" := "prod" ]})
    (Some {[ "env" := "prod"; "team" := "sec" ]}) = true ∧
  correctAnnotations (Some {[ "env" := "test" ]})
    (Some {[ "env" := "prod"; "team" := "sec" ]}) = false ∧
  correctAnnotations (Some {[ "env" := "prod" ]})
    (Some {[ "team" := "sec" ]}) = false ∧
  correctAnnotations (Some {[ "env" := "" ]})
    (Some {[ "team" := "sec" ]}) = true ∧
  correctAnnotations (Some ∅) (Some {[ "team" := "sec" ]}) = true.
Proof. split_and!; reflexivity. Qed.

(** * Further properties of verify.go *)

Section pipeline_properties.
Context {env : Collaborators}.
Implicit Types (sp : SignedPayload) (signatures : list SignedPayload).
Implicit Types (desc : v1.Descriptor) (annotations : GoMap).

Lemma length_filter_omap {A B} (f : A → option B) (l : list A) :
  (length (filter (λ x, f x = None) l) + length (omap f l) = length l)%nat.
Proof.
  induction l as [|x l IH]; [done|].
  rewrite filter_cons. cbn [omap list_omap length].
  destruct (f x) as [y|] eqn:Hfx.
  - rewrite decide_False by done. cbn [length]. lia.
  - rewrite decide_True by done. cbn [length]. lia.
Qed.

Lemma claim_errors_length desc annotations sp :
  (length (claim_errors desc annotations sp) +
   (if decide (claim_accepted desc annotations sp) then 1 else 0) =
   1 + (if decide ((digestAndClaims desc sp).2 ≠ None) then 1 else 0))%nat.
Proof.
  destruct (digestAndClaims desc sp) as [[d a] err] eqn:Hdc.
  rewrite (claim_errors_eq _ _ _ _ _ _ Hdc).
  pose proof (claim_accepted_eq _ annotations _ _ _ _ Hdc) as Hacc.
  destruct err as [e|]; cbn [snd option_list].
  - destruct (claim_errors_extraction desc annotations sp e) as (_ & _ & Hrej).
    { by rewrite Hdc. }
    assert (d = "") as ->.
    { pose proof (digestAndClaims_error desc sp e) as Hdc'.
      rewrite Hdc in Hdc'. by injection (Hdc' eq_refl). }
    rewrite (decide_True (P := "" ≠ _))
      by (intros Heq; by apply (Hash_String_nonempty (v1.Digest desc))).
    rewrite decide_False by done. rewrite decide_True by done. done.
  - rewrite (decide_False (P := None ≠ None)) by (by intros ?).
    destruct (decide (d ≠ _)) as [Hne|Heq].
    + rewrite decide_False by (rewrite Hacc; by intros [? _]). done.
    + apply dec_stable in Heq.
      destruct (correctAnnotations annotations a) eqn:Hok.
      * rewrite decide_True by (by rewrite Hacc). done.
      * rewrite decide_False by (rewrite Hacc; intros [_ ?]; congruence).
        done.
Qed.

(** X1: phase 1 sorts every candidate into exactly one of its two lists:
    the kept candidates are those of the input for which [VerifySignature]
    returns nil, the messages are the errors it returns for the others, and
    the two lists together are as long as the input. *)
Theorem validSignatures_partitions pubKey signatures valid errs trace :
  validSignatures_loop pubKey signatures [] [] = (valid, errs, trace) →
  (length valid + length errs = length signatures)%nat ∧
  (∀ sp, sp ∈ valid ↔
         sp ∈ signatures ∧
         VerifySignature pubKey (Base64Signature sp) (Payload sp) = None) ∧
  (∀ e, e ∈ errs ↔
        ∃ sp, sp ∈ signatures ∧
              VerifySignature pubKey (Base64Signature sp) (Payload sp) =
                Some e).
Proof.
  rewrite validSignatures_loop_spec. cbn [app]. intros [= <- <- <-].
  split_and!.
  - apply (length_filter_omap (signature_error pubKey)).
  - intros sp. rewrite list_elem_of_filter. unfold signature_valid,
      signature_error. tauto.
  - intros e. by rewrite list_elem_of_omap.
Qed.

(** X2: in phase 2 a survivor that is dropped leaves one message, and two
    when its extraction failed (the error, and the digest message that the
    missing [continue] lets through): kept items and messages together
    number the survivors plus the survivors whose extraction failed. *)
Theorem verifyClaims_message_count desc annotations survivors verified errs
    trace :
  verifyClaims_loop desc annotations survivors [] [] =
    (verified, errs, trace) →
  (length verified + length errs =
   length survivors +
   length (filter (λ sp, (digestAndClaims desc sp).2 ≠ None) survivors))%nat.
Proof.
  rewrite verifyClaims_loop_spec. cbn [app]. intros [= <- <- <-].
  induction survivors as [|sp survivors IH]; [done|].
  rewrite !filter_cons. cbn [map concat]. rewrite length_app.
  pose proof (claim_errors_length desc annotations sp) as Hsp.
  repeat case_decide; cbn [length] in *; lia.
Qed.

(** X3: with [checkClaims] set, the list [Verify] returns holds exactly the
    candidates whose signature is valid under the key, whose payload decodes
    without error to the descriptor's digest string, and whose annotations
    match. *)
Theorem Verify_checked_exact ref pubKey annotations signatures desc verified :
  FetchSignatures ref = inl (signatures, desc) →
  result (Verify ref pubKey true annotations) = (Some verified, None) →
  ∀ sp, sp ∈ verified ↔
        sp ∈ signatures ∧
        VerifySignature pubKey (Base64Signature sp) (Payload sp) = None ∧
        ∃ a, digestAndClaims desc sp =
               (v1.Hash_String (v1.Digest desc), a, None) ∧
             correctAnnotations annotations a = true.
Proof.
  intros Hfetch. rewrite (Verify_spec _ _ _ _ _ _ Hfetch).
  unfold result. cbn [fst negb]. case_decide; [done|].
  rewrite verifyClaims_spec. cbn [fst]. case_decide; [done|].
  intros [= <-] sp. rewrite !list_elem_of_filter.
  unfold signature_valid, signature_error.
  destruct (digestAndClaims desc sp) as [[d a] err] eqn:Hdc.
  rewrite (claim_accepted_eq _ _ _ _ _ _ Hdc). split.
  - intros ((-> & Hok) & Hvalid & Hin). split_and!; [done..|].
    exists a. split; [|done]. destruct err as [e|]; [|done].
    pose proof (digestAndClaims_error desc sp e) as Hdc'.
    rewrite Hdc in Hdc'. injection (Hdc' eq_refl) as Hd _.
    by destruct (Hash_String_nonempty (v1.Digest desc)).
  - intros (Hin & Hvalid & a' & [= -> <- ->] & Hok). done.
Qed.

(** X4: checking claims can only remove items. What [Verify] returns with
    [checkClaims] is a subsequence of what it returns without, and an error
    of the call without [checkClaims] is the error of the call with it. *)
Theorem Verify_claims_only_remove ref pubKey annotations signatures desc :
  FetchSignatures ref = inl (signatures, desc) →
  (∀ verified,
     result (Verify ref pubKey true annotations) = (Some verified, None) →
     ∃ valid,
       result (Verify ref pubKey false annotations) = (Some valid, None) ∧
       verified `sublist_of` valid) ∧
  (∀ err,
     result (Verify ref pubKey false annotations) = (None, Some err) →
     result (Verify ref pubKey true annotations) = (None, Some err)).
Proof.
  intros Hfetch. rewrite !(Verify_spec _ _ _ _ _ _ Hfetch).
  unfold result. cbn [fst negb]. split.
  - intros verified. case_decide; [done|].
    rewrite verifyClaims_spec. cbn [fst]. case_decide; [done|].
    intros [= <-]. eexists. split; [done|]. apply sublist_filter.
  - intros err. by case_decide.
Qed.

(** X5: an error of [Verify] is the error of [FetchSignatures], returned as
    it is before any signature is checked, or the report of phase 1 when no
    candidate has a valid signature, or, only with [checkClaims], the report
    of phase 2 when some candidate has a valid signature and none is
    accepted. *)
Theorem Verify_errors ref pubKey checkClaims annotations err :
  result (Verify ref pubKey checkClaims annotations) = (None, Some err) →
  (FetchSignatures ref = inr err ∧
   calls (Verify ref pubKey checkClaims annotations) = []) ∨
  (∃ signatures desc,
     FetchSignatures ref = inl (signatures, desc) ∧
     ((filter (signature_valid pubKey) signatures = [] ∧
       err = "no matching signatures:" +:+ LF +:+
             GoStrings.Join
               (result (validSignatures_loop pubKey signatures [] [])).2
               (LF +:+ "  ")) ∨
      (checkClaims = true ∧
       filter (signature_valid pubKey) signatures ≠ [] ∧
       filter (claim_accepted desc annotations)
         (filter (signature_valid pubKey) signatures) = [] ∧
       err = "no matching claims:" +:+ LF +:+
             GoStrings.Join
               (result (verifyClaims_loop desc annotations
                          (filter (signature_valid pubKey) signatures)
                          [] [])).2
               (LF +:+ "  ")))).
Proof.
  destruct (FetchSignatures ref) as [[signatures desc]|e] eqn:Hfetch.
  - rewrite (Verify_spec _ _ _ _ _ _ Hfetch). unfold result. cbn [fst].
    intros Herr. right. exists signatures, desc. split; [done|].
    case_decide as Hvalid.
    + left. split; [done|]. injection Herr as <-.
      by rewrite validSignatures_loop_spec.
    + right. destruct checkClaims; [|done]. cbn [negb] in Herr.
      rewrite verifyClaims_spec in Herr. cbn [fst] in Herr.
      case_decide; [|done]. injection Herr as <-.
      by rewrite verifyClaims_loop_spec.
  - rewrite (Verify_fetch_error _ _ _ _ _ Hfetch). intros [= ->]. by left.
Qed.

(** X6: [Verify] checks the signature of every candidate once, in candidate
    order, before it extracts any claim: its calls are the signature checks
    of all candidates followed by calls that are no signature checks. *)
Theorem Verify_checks_signatures_first ref pubKey checkClaims annotations
    signatures desc :
  FetchSignatures ref = inl (signatures, desc) →
  ∃ phase2 : list call,
    calls (Verify ref pubKey checkClaims annotations) =
      map (λ sp, CallVerifySignature (Base64Signature sp) (Payload sp))
        signatures ++ phase2 ∧
    ∀ base64sig payload, CallVerifySignature base64sig payload ∉ phase2.
Proof.
  intros Hfetch. rewrite (Verify_spec _ _ _ _ _ _ Hfetch).
  unfold calls. cbn [snd]. eexists. split; [done|].
  intros base64sig payload Hc.
  repeat case_match; try by apply elem_of_nil in Hc.
  rewrite verifyClaims_spec in Hc. cbn [snd] in Hc.
  apply elem_of_concat_map_inv in Hc as (sp & _ & Hc).
  by apply claim_calls_inv in Hc as [[=]|[=]].
Qed.
End pipeline_properties.

Section matcher_properties.
Implicit Types wanted have : gmap string string.

(** X7: wanting fewer annotations never turns a match into a mismatch: a
    claim that matches a wanted map matches every map contained in it. *)
Theorem correctAnnotations_fewer_wanted wanted wanted' (have : GoMap) :
  wanted ⊆ wanted' →
  correctAnnotations (Some wanted') have = true →
  correctAnnotations (Some wanted) have = true.
Proof.
  rewrite !correctAnnotations_true. intros Hsub Hall k v Hk.
  apply Hall. cbn in *. by eapply lookup_weaken.
Qed.

(** X8: a claim whose annotations contain the wanted ones matches, in
    particular a claim with exactly the wanted annotations. *)
Theorem correctAnnotations_superset wanted have :
  wanted ⊆ have →
  correctAnnotations (Some wanted) (Some have) = true.
Proof.
  rewrite correctAnnotations_true. intros Hsub k v Hk.
  rewrite index_entry. cbn in *. by rewrite (lookup_weaken _ _ _ _ Hk Hsub).
Qed.

(** X9: one wanted annotation whose value differs from what the claim's map
    yields for its key makes the match fail, whatever the other wanted
    annotations are. *)
Theorem correctAnnotations_one_mismatch wanted (have : GoMap) k v :
  index have k ≠ v →
  correctAnnotations (Some (<[k:=v]> wanted)) have = false.
Proof.
  intros Hne. apply not_true_is_false. rewrite correctAnnotations_true.
  intros Hall. apply Hne, Hall. cbn. apply lookup_insert_eq.
Qed.

(** X22: Go visits the entries of a map in no fixed order; whatever order the
    [range] of [correctAnnotations] takes over the wanted entries, the result
    is the same. *)
Theorem correctAnnotations_any_order (wanted' : GoMap) (have : GoMap)
    (entries : list (string * string)) :
  entries ≡ₚ range wanted' →
  correctAnnotations_range entries have = correctAnnotations wanted' have.
Proof. apply correctAnnotations_range_Permutation. Qed.
End matcher_properties.

(** * Properties of the key loading functions and of the commands *)

Section command_properties.
Context {env : Collaborators} {platform : Platform}.

Lemma LoadPublicKey_success_iff keyRef pub :
  outcome (LoadPublicKey keyRef) = inl pub ↔
  ∃ der,
    ParsePKIXPublicKey der = inl (Ed25519PublicKey pub) ∧
    ((os_IsNotExist (os_Stat keyRef) = true ∧
      DecodeString keyRef = inl der) ∨
     (os_IsNotExist (os_Stat keyRef) = false ∧
      ∃ b p, ioutil_ReadFile keyRef = inl b ∧
             pem_Decode b = Some p ∧
             Block_Type p = "PUBLIC KEY" ∧
             Block_Bytes p = der)).
Proof.
  unfold LoadPublicKey, outcome, mbind, IO_bind, perform, try, throw, mret,
    IO_ret, pubKeyPemType.
  cbn [fst snd]. split.
  - destruct (os_IsNotExist (os_Stat keyRef)) eqn:Hstat.
    + destruct (DecodeString keyRef) as [der|e] eqn:Hdec; cbn; [|done].
      destruct (ParsePKIXPublicKey der) as [[k|]|e] eqn:Hparse; cbn;
        [|done..].
      intros [= ->]. exists der. split; [done|]. by left.
    + destruct (ioutil_ReadFile keyRef) as [b|e] eqn:Hread; cbn; [|done].
      destruct (pem_Decode b) as [p|] eqn:Hpem; cbn; [|done].
      case_decide as Hty; cbn; [done|].
      destruct (ParsePKIXPublicKey (Block_Bytes p)) as [[k|]|e] eqn:Hparse;
        cbn; [|done..].
      intros [= ->]. exists (Block_Bytes p). split; [done|].
      right. split; [done|]. eauto 10.
  - intros (der & Hparse & [[Hstat Hdec]|(Hstat & b & p & Hread & Hpem & Hty & Hb)]).
    + rewrite Hstat, Hdec. cbn. rewrite Hparse. done.
    + rewrite Hstat, Hread. cbn. rewrite Hpem.
      rewrite decide_False by (by intros ?). cbn. rewrite Hb, Hparse. done.
Qed.

(** X10: [LoadPublicKey] returns a key exactly when the DER bytes parse as an
    ed25519 key, where the DER bytes are the base64 decoding of the argument
    if [os.Stat] reports that no such file exists, and otherwise the bytes of
    the PEM block of the file, which must be of type ["PUBLIC KEY"]. An
    existing file is never read as base64 text. *)
Theorem LoadPublicKey_success keyRef pub :
  outcome (LoadPublicKey keyRef) = inl pub ↔
  ∃ der,
    ParsePKIXPublicKey der = inl (Ed25519PublicKey pub) ∧
    ((os_IsNotExist (os_Stat keyRef) = true ∧
      DecodeString keyRef = inl der) ∨
     (os_IsNotExist (os_Stat keyRef) = false ∧
      ∃ b p, ioutil_ReadFile keyRef = inl b ∧
             pem_Decode b = Some p ∧
             Block_Type p = "PUBLIC KEY" ∧
             Block_Bytes p = der)).
Proof. apply LoadPublicKey_success_iff. Qed.

(** X11: [LoadPublicKey] calls [os.Stat] once and then reads the file
    exactly when [os.Stat] did not report it missing, which includes a
    [Stat] that failed for another reason; it does nothing else. *)
Theorem LoadPublicKey_effects keyRef :
  effects (LoadPublicKey keyRef) =
    if os_IsNotExist (os_Stat keyRef) then [Stat keyRef]
    else [Stat keyRef; ReadFile keyRef].
Proof.
  unfold LoadPublicKey, effects, mbind, IO_bind, perform, try, throw, mret,
    IO_ret.
  cbn [fst snd].
  repeat (case_match; cbn [fst snd app] in *; simplify_eq); done.
Qed.

(** X12: for a key file, a content without a PEM block gives the error
    ["pem.Decode failed"], a block of another type than ["PUBLIC KEY"] the
    error ["not public: "] with the quoted type, whatever its bytes are, and
    a public key that is not an ed25519 key the error
    ["invalid public key"]. *)
Theorem LoadPublicKey_file_errors keyRef b :
  os_IsNotExist (os_Stat keyRef) = false →
  ioutil_ReadFile keyRef = inl b →
  (pem_Decode b = None →
   outcome (LoadPublicKey keyRef) = inr "pem.Decode failed") ∧
  (∀ p, pem_Decode b = Some p → Block_Type p ≠ "PUBLIC KEY" →
        outcome (LoadPublicKey keyRef) =
          inr ("not public: " +:+ Quote (Block_Type p))) ∧
  (∀ p, pem_Decode b = Some p → Block_Type p = "PUBLIC KEY" →
        ParsePKIXPublicKey (Block_Bytes p) = inl OtherPublicKey →
        outcome (LoadPublicKey keyRef) = inr "invalid public key").
Proof.
  intros Hstat Hread.
  unfold LoadPublicKey, outcome, mbind, IO_bind, perform, try, throw, mret,
    IO_ret, pubKeyPemType.
  cbn [fst snd]. rewrite Hstat, Hread. cbn [fst snd]. split_and!.
  - by intros ->.
  - intros p -> Hty. by rewrite decide_True.
  - intros p -> Hty Hparse. rewrite decide_False by (by intros ?).
    cbn. by rewrite Hparse.
Qed.

(** X13: a public key file written from [LoadPublicKeyFromPrivKey] is read
    back by [LoadPublicKey] as the public key of the private key, provided
    PEM decoding inverts PEM encoding on ["PUBLIC KEY"] blocks and PKIX
    parsing inverts PKIX marshalling. *)
Theorem LoadPublicKey_of_LoadPublicKeyFromPrivKey pk keyRef pemBytes :
  (∀ bytes,
     pem_Decode (pem_EncodeToMemory {| Block_Type := "PUBLIC KEY";
                                       Block_Bytes := bytes |}) =
       Some {| Block_Type := "PUBLIC KEY"; Block_Bytes := bytes |}) →
  (∀ pub der, MarshalPKIXPublicKey pub = inl der →
              ParsePKIXPublicKey der = inl pub) →
  LoadPublicKeyFromPrivKey pk = inl pemBytes →
  os_IsNotExist (os_Stat keyRef) = false →
  ioutil_ReadFile keyRef = inl pemBytes →
  outcome (LoadPublicKey keyRef) = inl (ed25519_Public pk).
Proof.
  intros Hpem Hpkix Hwrite Hstat Hread.
  unfold LoadPublicKeyFromPrivKey in Hwrite.
  destruct (MarshalPKIXPublicKey _) as [der|err] eqn:Hder; [|done].
  injection Hwrite as <-.
  apply LoadPublicKey_success_iff. exists der. split; [by apply Hpkix|].
  right. split; [done|]. eauto 10.
Qed.

Lemma signatureBytes_eq sigRef :
  signatureBytes sigRef =
    if decide (sigRef = "-") then ([ReadStdin], ioutil_ReadAll_Stdin)
    else if os_IsNotExist (os_Stat sigRef)
         then ([Stat sigRef], inl (list_byte_of_string sigRef))
         else ([Stat sigRef; ReadFile sigRef], ioutil_ReadFile sigRef).
Proof.
  unfold signatureBytes, signatureType, signatureFileNotExists, mbind,
    IO_bind, perform, try, throw, mret, IO_ret.
  case_decide; [done|]. cbn [fst snd].
  by destruct (os_IsNotExist (os_Stat sigRef)).
Qed.

(** X14: [signatureBytes] reads standard input for ["-"] without looking at
    the file system; for any other argument it calls [os.Stat] and returns
    the argument's own bytes, reading nothing, if no such file exists, and
    the content or the error of reading the file otherwise. The error
    ["unknown signature arg type"] of the default case is never returned by
    the switch itself. *)
Theorem signatureBytes_cases sigRef :
  signatureBytes sigRef =
    if decide (sigRef = "-") then ([ReadStdin], ioutil_ReadAll_Stdin)
    else if os_IsNotExist (os_Stat sigRef)
         then ([Stat sigRef], inl (list_byte_of_string sigRef))
         else ([Stat sigRef; ReadFile sigRef], ioutil_ReadFile sigRef).
Proof. apply signatureBytes_eq. Qed.

Ltac io_unfold :=
  unfold mbind, IO_bind, perform, try, throw, mret, IO_ret, effects, outcome
    in *;
  cbn [fst snd] in *.

(** Closes a goal whose hypothesis [H] puts an upload among effects that
    are reads or the fetch. *)
Ltac no_upload H Hreads :=
  set_unfold in H; destruct_or?; simplify_eq;
  apply Hreads in H; by destruct H as [?|[?|?]].

Lemma signatureBytes_only_reads sigRef e :
  e ∈ effects (signatureBytes sigRef) →
  e = ReadStdin ∨ e = Stat sigRef ∨ e = ReadFile sigRef.
Proof.
  rewrite signatureBytes_eq. unfold effects.
  repeat case_match; cbn [fst]; intros He; set_unfold in He;
    destruct_or?; simplify_eq; auto.
Qed.

(** X15: an empty signature, from an empty argument that names no file, an
    empty file or an empty standard input, makes [UploadCmd] return the
    error ["empty signature"] right after reading it: the image reference is
    not parsed, the registry is not contacted and nothing is uploaded. *)
Theorem UploadCmd_empty_signature sigRef payloadRef imageRef :
  outcome (signatureBytes sigRef) = inl [] →
  UploadCmd sigRef payloadRef imageRef =
    (effects (signatureBytes sigRef), inr "empty signature").
Proof.
  unfold UploadCmd. io_unfold.
  destruct (signatureBytes sigRef) as [read [b64|err]]; cbn [fst snd];
    [|done].
  intros [= ->]. rewrite decide_True by done. cbn. by rewrite app_nil_r.
Qed.

Lemma UploadCmd_upload_inv sigRef payloadRef imageRef signature payload
    mt dstTag :
  UploadSignature signature payload mt dstTag ∈
    effects (UploadCmd sigRef payloadRef imageRef) →
  ∃ b64SigBytes ref get,
    outcome (signatureBytes sigRef) = inl b64SigBytes ∧
    b64SigBytes ≠ [] ∧
    DecodeString (string_of_list_byte b64SigBytes) = inl signature ∧
    ParseReference imageRef = inl ref ∧
    remote_Get ref = inl get ∧
    dstTag = Context_Tag ref (cosign_Munge get) ∧
    (if decide (payloadRef = "") then cosign_Payload get = inl (payload, mt)
     else ioutil_ReadFile payloadRef = inl payload ∧
          mt = "application/vnd.dev.cosign.simplesigning.v1+json").
Proof.
  pose proof (signatureBytes_only_reads sigRef) as Hreads.
  unfold UploadCmd. io_unfold.
  destruct (signatureBytes sigRef) as [read [b64|err]]; cbn [fst snd] in *.
  2:{ intros Hup. apply Hreads in Hup. by destruct Hup as [?|[?|?]]. }
  case_decide as Hlen; cbn [fst snd].
  { intros Hup. no_upload Hup Hreads. }
  destruct (ParseReference imageRef) as [ref|err]; cbn [fst snd].
  2:{ intros Hup. no_upload Hup Hreads. }
  destruct (remote_Get ref) as [get|err] eqn:Hget; cbn [fst snd].
  2:{ intros Hup. no_upload Hup Hreads. }
  assert (b64 ≠ []) as Hne by (by destruct b64).
  case_decide as Hpayload; cbn [fst snd].
  - destruct (cosign_Payload get) as [[p m]|err] eqn:Hp; cbn [fst snd].
    2:{ intros Hup. no_upload Hup Hreads. }
    destruct (DecodeString _) as [sigBytes|e] eqn:Hdec; cbn [fst snd];
      intros Hup; [|no_upload Hup Hreads].
    set_unfold in Hup. destruct_or!; simplify_eq;
      try (apply Hreads in Hup; by destruct Hup as [?|[?|?]]).
    by exists b64, ref, get.
  - destruct (ioutil_ReadFile payloadRef) as [p|err] eqn:Hp; cbn [fst snd].
    2:{ intros Hup. no_upload Hup Hreads. }
    destruct (DecodeString _) as [sigBytes|e] eqn:Hdec; cbn [fst snd];
      intros Hup; [|no_upload Hup Hreads].
    set_unfold in Hup. destruct_or!; simplify_eq;
      try (apply Hreads in Hup; by destruct Hup as [?|[?|?]]).
    by exists b64, ref, get.
Qed.

(** X16: whatever [UploadCmd] uploads is the base64 decoding of the
    non-empty signature it read, under the tag made from the parsed image
    reference and the munged descriptor that the registry returned for it;
    the payload and media type are those of [cosign.Payload] when no payload
    file is given, and otherwise the content of the payload file with the
    simple-signing media type. *)
Theorem UploadCmd_upload_arguments sigRef payloadRef imageRef signature payload
    mt dstTag :
  UploadSignature signature payload mt dstTag ∈
    effects (UploadCmd sigRef payloadRef imageRef) →
  ∃ b64SigBytes ref get,
    outcome (signatureBytes sigRef) = inl b64SigBytes ∧
    b64SigBytes ≠ [] ∧
    DecodeString (string_of_list_byte b64SigBytes) = inl signature ∧
    ParseReference imageRef = inl ref ∧
    remote_Get ref = inl get ∧
    dstTag = Context_Tag ref (cosign_Munge get) ∧
    (if decide (payloadRef = "") then cosign_Payload get = inl (payload, mt)
     else ioutil_ReadFile payloadRef = inl payload ∧
          mt = "application/vnd.dev.cosign.simplesigning.v1+json").
Proof. apply UploadCmd_upload_inv. Qed.

Lemma UploadCmd_success_inv sigRef payloadRef imageRef :
  outcome (UploadCmd sigRef payloadRef imageRef) = inl () →
  ∃ before signature payload mt dstTag,
    effects (UploadCmd sigRef payloadRef imageRef) =
      before ++ [UploadSignature signature payload mt dstTag] ∧
    cosign_Upload signature payload mt dstTag = None ∧
    ∀ signature' payload' mt' dstTag',
      UploadSignature signature' payload' mt' dstTag' ∉ before.
Proof.
  pose proof (signatureBytes_only_reads sigRef) as Hreads.
  unfold UploadCmd. io_unfold.
  destruct (signatureBytes sigRef) as [read [b64|err]]; cbn [fst snd] in *;
    [|done].
  case_decide as Hlen; cbn [fst snd]; [done|].
  destruct (ParseReference imageRef) as [ref|err]; cbn [fst snd]; [|done].
  destruct (remote_Get ref) as [get|err]; cbn [fst snd]; [|done].
  case_decide as Hpayload; cbn [fst snd].
  - destruct (cosign_Payload get) as [[p m]|err]; cbn [fst snd]; [|done].
    destruct (DecodeString _) as [sigBytes|e]; cbn [fst snd]; [|done].
    destruct (cosign_Upload _ _ _ _) eqn:Hupload; [done|]. intros _.
    exists (read ++ [RemoteGet ref]), sigBytes, p, m,
      (Context_Tag ref (cosign_Munge get)).
    split_and!; [by rewrite <-!app_assoc|done|].
    intros s' p' m' t' Hup. no_upload Hup Hreads.
  - destruct (ioutil_ReadFile payloadRef) as [p|err]; cbn [fst snd]; [|done].
    destruct (DecodeString _) as [sigBytes|e]; cbn [fst snd]; [|done].
    destruct (cosign_Upload _ _ _ _) eqn:Hupload; [done|]. intros _.
    exists (read ++ [RemoteGet ref; ReadFile payloadRef]), sigBytes, p,
      "application/vnd.dev.cosign.simplesigning.v1+json",
      (Context_Tag ref (cosign_Munge get)).
    split_and!; [by rewrite <-!app_assoc|done|].
    intros s' p' m' t' Hup. no_upload Hup Hreads.
Qed.

(** X17: when [UploadCmd] returns nil it has made exactly one upload, as its
    last step, and [cosign.Upload] returned nil for it. *)
Theorem UploadCmd_success sigRef payloadRef imageRef :
  outcome (UploadCmd sigRef payloadRef imageRef) = inl () →
  ∃ before signature payload mt dstTag,
    effects (UploadCmd sigRef payloadRef imageRef) =
      before ++ [UploadSignature signature payload mt dstTag] ∧
    cosign_Upload signature payload mt dstTag = None ∧
    ∀ signature' payload' mt' dstTag',
      UploadSignature signature' payload' mt' dstTag' ∉ before.
Proof. apply UploadCmd_success_inv. Qed.

(** X18: a signature text that is not base64 is never uploaded and
    [UploadCmd] never returns nil for it; the text is decoded only after the
    image has been fetched from the registry and the payload obtained, so
    that with these succeeding the registry has been contacted when the
    base64 error is returned. *)
Theorem UploadCmd_corrupt_signature sigRef payloadRef imageRef b64SigBytes e :
  outcome (signatureBytes sigRef) = inl b64SigBytes →
  DecodeString (string_of_list_byte b64SigBytes) = inr e →
  outcome (UploadCmd sigRef payloadRef imageRef) ≠ inl () ∧
  (∀ signature payload mt dstTag,
     UploadSignature signature payload mt dstTag ∉
       effects (UploadCmd sigRef payloadRef imageRef)) ∧
  (∀ ref get,
     b64SigBytes ≠ [] →
     ParseReference imageRef = inl ref →
     remote_Get ref = inl get →
     (if decide (payloadRef = "") then
        ∃ payload mt, cosign_Payload get = inl (payload, mt)
      else ∃ payload, ioutil_ReadFile payloadRef = inl payload) →
     outcome (UploadCmd sigRef payloadRef imageRef) =
       inr (base64.CorruptInputError_Error e) ∧
     RemoteGet ref ∈ effects (UploadCmd sigRef payloadRef imageRef)).
Proof.
  intros Hread Hdec. split_and!.
  - intros Hok. apply UploadCmd_success_inv in Hok
      as (before & s & p & m & t & Heff & _ & _).
    assert (UploadSignature s p m t ∈
              effects (UploadCmd sigRef payloadRef imageRef)) as Hup.
    { rewrite Heff. apply elem_of_app. right. left. }
    apply UploadCmd_upload_inv in Hup
      as (b64 & ? & ? & Hread' & _ & Hdec' & _).
    congruence.
  - intros s p m t Hup.
    apply UploadCmd_upload_inv in Hup
      as (b64 & ? & ? & Hread' & _ & Hdec' & _).
    congruence.
  - intros ref get Hne Hparse Hget Hpayload.
    unfold UploadCmd. io_unfold.
    destruct (signatureBytes sigRef) as [read [b64|err]]; cbn [fst snd] in *;
      simplify_eq.
    rewrite decide_False by (by destruct b64SigBytes).
    rewrite Hparse. cbn [fst snd]. rewrite Hget. cbn [fst snd].
    case_decide.
    + destruct Hpayload as (p & m & ->). cbn [fst snd]. rewrite Hdec.
      cbn [fst snd]. split; [done|].
      apply elem_of_app. right. left.
    + destruct Hpayload as (p & ->). cbn [fst snd]. rewrite Hdec.
      cbn [fst snd]. split; [done|].
      apply elem_of_app. right. left.
Qed.

Lemma SignBlobCmd_stdout_inv keyPath payloadPath b64 pf :
  (∀ err, outcome (SignBlobCmd keyPath payloadPath b64 pf) = inr err →
     ∀ data, WriteStdout data ∉
               effects (SignBlobCmd keyPath payloadPath b64 pf)) ∧
  (outcome (SignBlobCmd keyPath payloadPath b64 pf) = inl () →
   ∃ before payload pass kb pk,
     (if decide (payloadPath = "-") then ioutil_ReadAll_Stdin
      else ioutil_ReadFile payloadPath) = inl payload ∧
     pf false = inl pass ∧
     ioutil_ReadFile keyPath = inl kb ∧
     cosign_LoadPrivateKey kb pass = inl pk ∧
     effects (SignBlobCmd keyPath payloadPath b64 pf) =
       before ++
       [WriteStdout
          (if b64 then
             list_byte_of_string
               (EncodeToString (ed25519_Sign pk payload) +:+ LF)
           else ed25519_Sign pk payload)] ∧
     ∀ data, WriteStdout data ∉ before).
Proof.
  unfold SignBlobCmd. io_unfold. split.
  - intros err Herr data Hw.
    case_decide;
      repeat (case_match; cbn [fst snd] in *; simplify_eq);
      set_unfold in Hw; destruct_or?; simplify_eq.
  - case_decide as Hstdin.
    + destruct ioutil_ReadAll_Stdin as [payload|err]; cbn [fst snd]; [|done].
      destruct (pf false) as [pass|err]; cbn [fst snd]; [|done].
      destruct (ioutil_ReadFile keyPath) as [kb|err]; cbn [fst snd]; [|done].
      destruct (cosign_LoadPrivateKey kb pass) as [pk|err] eqn:Hpk;
        cbn [fst snd]; [|done].
      intros _. exists [ReadStdin; AskPass false; ReadFile keyPath].
      exists payload, pass, kb, pk. split_and!; try done.
      * by destruct b64.
      * intros data Hw. set_unfold in Hw. destruct_or?; simplify_eq.
    + destruct (ioutil_ReadFile payloadPath) as [payload|err] eqn:Hpayload;
        cbn [fst snd]; [|done].
      destruct (pf false) as [pass|err]; cbn [fst snd]; [|done].
      destruct (ioutil_ReadFile keyPath) as [kb|err] eqn:Hkb; cbn [fst snd];
        [|done].
      destruct (cosign_LoadPrivateKey kb pass) as [pk|err] eqn:Hpk;
        cbn [fst snd]; [|done].
      intros _.
      exists [WriteStderr ("Using payload from: " +:+ payloadPath +:+ LF);
              ReadFile payloadPath; AskPass false; ReadFile keyPath].
      exists payload, pass, kb, pk. split_and!; try done.
      * by destruct b64.
      * intros data Hw. set_unfold in Hw. destruct_or?; simplify_eq.
Qed.

(** X19: [SignBlobCmd] writes to standard output only when every step has
    succeeded, and then once, as its last step: the base64 text of the
    signature of the payload followed by a line feed when [b64] is set, the
    raw signature bytes without a line feed otherwise. The signing key is the
    one [cosign.LoadPrivateKey] returns for the key file and the passphrase
    that was typed. *)
Theorem SignBlobCmd_stdout keyPath payloadPath b64 pf :
  (∀ err, outcome (SignBlobCmd keyPath payloadPath b64 pf) = inr err →
     ∀ data, WriteStdout data ∉
               effects (SignBlobCmd keyPath payloadPath b64 pf)) ∧
  (outcome (SignBlobCmd keyPath payloadPath b64 pf) = inl () →
   ∃ before payload pass kb pk,
     (if decide (payloadPath = "-") then ioutil_ReadAll_Stdin
      else ioutil_ReadFile payloadPath) = inl payload ∧
     pf false = inl pass ∧
     ioutil_ReadFile keyPath = inl kb ∧
     cosign_LoadPrivateKey kb pass = inl pk ∧
     effects (SignBlobCmd keyPath payloadPath b64 pf) =
       before ++
       [WriteStdout
          (if b64 then
             list_byte_of_string
               (EncodeToString (ed25519_Sign pk payload) +:+ LF)
           else ed25519_Sign pk payload)] ∧
     ∀ data, WriteStdout data ∉ before).
Proof. apply SignBlobCmd_stdout_inv. Qed.


(** X21: the base64 line that [SignBlobCmd] prints is accepted by
    [VerifySignature] for the payload it signed, under the public key of the
    private key it loaded, provided base64 decoding inverts encoding and
    [ed25519.Verify] accepts what [ed25519.Sign] produces. *)
Theorem SignBlobCmd_signature_verifies keyPath payloadPath pf :
  (∀ src, DecodeString (EncodeToString src) = inl src) →
  (∀ pk message,
     ed25519_Verify (ed25519_Public pk) message (ed25519_Sign pk message) =
       true) →
  outcome (SignBlobCmd keyPath payloadPath true pf) = inl () →
  ∃ before payload pass kb pk line,
    (if decide (payloadPath = "-") then ioutil_ReadAll_Stdin
     else ioutil_ReadFile payloadPath) = inl payload ∧
    pf false = inl pass ∧
    ioutil_ReadFile keyPath = inl kb ∧
    cosign_LoadPrivateKey kb pass = inl pk ∧
    effects (SignBlobCmd keyPath payloadPath true pf) =
      before ++ [WriteStdout (list_byte_of_string (line +:+ LF))] ∧
    VerifySignature (ed25519_Public pk) line payload = None.
Proof.
  intros Hb64 Hed Hok.
  destruct (SignBlobCmd_stdout_inv keyPath payloadPath true pf) as [_ Hout].
  destruct (Hout Hok)
    as (before & payload & pass & kb & pk & ? & ? & ? & ? & Heff & _).
  exists before, payload, pass, kb, pk,
    (EncodeToString (ed25519_Sign pk payload)).
  split_and!; try done.
  unfold VerifySignature. by rewrite Hb64, Hed.
Qed.
End command_properties.

(** ** The further properties on the concrete world *)

Lemma validSignatures_partitions_witness :
  validSignatures_loop (env := Scenario.mixed) Scenario.key
    Scenario.candidates [] [] =
    (Scenario.survivors,
     ["unable to verify signature"; "illegal base64 data at input byte 0"],
     map (λ sp, CallVerifySignature (Base64Signature sp) (Payload sp))
       Scenario.candidates) ∧
  ((length Scenario.survivors +
    length ["unable to verify signature";
            "illegal base64 data at input byte 0"] =
    length Scenario.candidates)%nat ∧
   (∀ sp, sp ∈ Scenario.survivors ↔
          sp ∈ Scenario.candidates ∧
          VerifySignature (env := Scenario.mixed) Scenario.key
            (Base64Signature sp) (Payload sp) = None) ∧
   (∀ e, e ∈ ["unable to verify signature";
              "illegal base64 data at input byte 0"] ↔
         ∃ sp, sp ∈ Scenario.candidates ∧
               VerifySignature (env := Scenario.mixed) Scenario.key
                 (Base64Signature sp) (Payload sp) = Some e)).
Proof.
  split; [reflexivity|].
  apply (validSignatures_partitions (env := Scenario.mixed) Scenario.key
           Scenario.candidates _ _
           (map (λ sp, CallVerifySignature (Base64Signature sp) (Payload sp))
              Scenario.candidates)).
  reflexivity.
Defined.

Lemma verifyClaims_message_count_witness :
  verifyClaims_loop (env := Scenario.mixed) Scenario.desc Scenario.wanted
    Scenario.survivors [] [] =
    ([Scenario.signed "asha256:abc"],
     ["invalid or missing annotation in claim: map[]";
      "unexpected end of JSON input";
      "invalid or missing digest in claim: ";
      "invalid or missing digest in claim: sha256:def"],
     [CallDigestAndClaims Scenario.desc (Scenario.signed "-sha256:abc");
      CallCorrectAnnotations Scenario.wanted None;
      CallDigestAndClaims Scenario.desc (Scenario.signed "");
      CallDigestAndClaims Scenario.desc (Scenario.signed "asha256:abc");
      CallCorrectAnnotations Scenario.wanted Scenario.wanted;
      CallDigestAndClaims Scenario.desc (Scenario.signed "-sha256:def")]) ∧
  (length [Scenario.signed "asha256:abc"] +
   length ["invalid or missing annotation in claim: map[]";
           "unexpected end of JSON input";
           "invalid or missing digest in claim: ";
           "invalid or missing digest in claim: sha256:def"] =
   length Scenario.survivors +
   length (filter (λ sp, (digestAndClaims (env := Scenario.mixed)
                            Scenario.desc sp).2 ≠ None)
             Scenario.survivors))%nat.
Proof.
  split; [reflexivity|].
  apply (verifyClaims_message_count (env := Scenario.mixed) Scenario.desc
           Scenario.wanted Scenario.survivors _ _
           [CallDigestAndClaims Scenario.desc (Scenario.signed "-sha256:abc");
            CallCorrectAnnotations Scenario.wanted None;
            CallDigestAndClaims Scenario.desc (Scenario.signed "");
            CallDigestAndClaims Scenario.desc (Scenario.signed "asha256:abc");
            CallCorrectAnnotations Scenario.wanted Scenario.wanted;
            CallDigestAndClaims Scenario.desc (Scenario.signed "-sha256:def")]).
  reflexivity.
Defined.

Lemma Verify_checked_exact_witness :
  @FetchSignatures Scenario.mixed tt =
    inl (Scenario.candidates, Scenario.desc) ∧
  result (Verify (env := Scenario.mixed) tt Scenario.key true
            Scenario.wanted) =
    (Some [Scenario.signed "asha256:abc"], None) ∧
  ∀ sp, sp ∈ [Scenario.signed "asha256:abc"] ↔
        sp ∈ Scenario.candidates ∧
        VerifySignature (env := Scenario.mixed) Scenario.key
          (Base64Signature sp) (Payload sp) = None ∧
        ∃ a, digestAndClaims (env := Scenario.mixed) Scenario.desc sp =
               (v1.Hash_String (v1.Digest Scenario.desc), a, None) ∧
             correctAnnotations Scenario.wanted a = true.
Proof.
  split; [reflexivity|]. split; [reflexivity|].
  apply (Verify_checked_exact (env := Scenario.mixed) tt Scenario.key
           Scenario.wanted Scenario.candidates Scenario.desc); reflexivity.
Defined.

Lemma Verify_claims_only_remove_witness :
  @FetchSignatures Scenario.mixed tt =
    inl (Scenario.candidates, Scenario.desc) ∧
  ((∀ verified,
      result (Verify (env := Scenario.mixed) tt Scenario.key true
                Scenario.wanted) = (Some verified, None) →
      ∃ valid,
        result (Verify (env := Scenario.mixed) tt Scenario.key false
                  Scenario.wanted) = (Some valid, None) ∧
        verified `sublist_of` valid) ∧
   (∀ err,
      result (Verify (env := Scenario.mixed) tt Scenario.key false
                Scenario.wanted) = (None, Some err) →
      result (Verify (env := Scenario.mixed) tt Scenario.key true
                Scenario.wanted) = (None, Some err))).
Proof.
  split; [reflexivity|].
  apply (Verify_claims_only_remove (env := Scenario.mixed) tt Scenario.key
           Scenario.wanted Scenario.candidates Scenario.desc); reflexivity.
Defined.

Lemma Verify_errors_witness :
  result (Verify (env := Scenario.other_digests) tt Scenario.key true None) =
    (None, Some ("no matching claims:" +:+ LF +:+
                 "invalid or missing digest in claim: SHA256:abc" +:+ LF +:+
                 "  invalid or missing digest in claim: sha256:def")) ∧
  ((@FetchSignatures Scenario.other_digests tt =
      inr ("no matching claims:" +:+ LF +:+
           "invalid or missing digest in claim: SHA256:abc" +:+ LF +:+
           "  invalid or missing digest in claim: sha256:def") ∧
    calls (Verify (env := Scenario.other_digests) tt Scenario.key true None) =
      []) ∨
   (∃ signatures desc,
      @FetchSignatures Scenario.other_digests tt = inl (signatures, desc) ∧
      ((filter (signature_valid (env := Scenario.other_digests) Scenario.key)
          signatures = [] ∧
        "no matching claims:" +:+ LF +:+
        "invalid or missing digest in claim: SHA256:abc" +:+ LF +:+
        "  invalid or missing digest in claim: sha256:def" =
        "no matching signatures:" +:+ LF +:+
        GoStrings.Join
          (result (validSignatures_loop (env := Scenario.other_digests)
                     Scenario.key signatures [] [])).2
          (LF +:+ "  ")) ∨
       (true = true ∧
        filter (signature_valid (env := Scenario.other_digests) Scenario.key)
          signatures ≠ [] ∧
        filter (claim_accepted (env := Scenario.other_digests) desc None)
          (filter (signature_valid (env := Scenario.other_digests)
                     Scenario.key) signatures) = [] ∧
        "no matching claims:" +:+ LF +:+
        "invalid or missing digest in claim: SHA256:abc" +:+ LF +:+
        "  invalid or missing digest in claim: sha256:def" =
        "no matching claims:" +:+ LF +:+
        GoStrings.Join
          (result (verifyClaims_loop (env := Scenario.other_digests) desc None
                     (filter (signature_valid (env := Scenario.other_digests)
                                Scenario.key) signatures) [] [])).2
          (LF +:+ "  "))))).
Proof.
  split; [reflexivity|].
  apply (Verify_errors (env := Scenario.other_digests) tt Scenario.key true
           None).
  reflexivity.
Defined.

Lemma Verify_checks_signatures_first_witness :
  @FetchSignatures Scenario.mixed tt =
    inl (Scenario.candidates, Scenario.desc) ∧
  ∃ phase2 : list call,
    calls (Verify (env := Scenario.mixed) tt Scenario.key true
             Scenario.wanted) =
      map (λ sp, CallVerifySignature (Base64Signature sp) (Payload sp))
        Scenario.candidates ++ phase2 ∧
    ∀ base64sig payload, CallVerifySignature base64sig payload ∉ phase2.
Proof.
  split; [reflexivity|].
  apply (Verify_checks_signatures_first (env := Scenario.mixed) tt
           Scenario.key true Scenario.wanted Scenario.candidates
           Scenario.desc).
  reflexivity.
Defined.

Lemma correctAnnotations_fewer_wanted_witness :
  ({[ "env" := "prod" ]} : gmap string string) ⊆
    {[ "env" := "prod"; "team" := "sec" ]} ∧
  correctAnnotations (Some {[ "env" := "prod"; "team" := "sec" ]})
    (Some {[ "env" := "prod"; "team" := "sec"; "tier" := "1" ]}) = true ∧
  correctAnnotations (Some {[ "env" := "prod" ]})
    (Some {[ "env" := "prod"; "team" := "sec"; "tier" := "1" ]}) = true.
Proof.
  assert (({[ "env" := "prod" ]} : gmap string string) ⊆
            {[ "env" := "prod"; "team" := "sec" ]}) as Hsub.
  { apply map_subseteq_spec. intros k v [<- <-]%lookup_singleton_Some.
    reflexivity. }
  split; [exact Hsub|]. split; [reflexivity|].
  apply (correctAnnotations_fewer_wanted {[ "env" := "prod" ]}
           {[ "env" := "prod"; "team" := "sec" ]}
           (Some {[ "env" := "prod"; "team" := "sec"; "tier" := "1" ]}));
    [exact Hsub | reflexivity].
Defined.

Lemma correctAnnotations_superset_witness :
  ({[ "env" := "prod" ]} : gmap string string) ⊆
    {[ "env" := "prod"; "team" := "sec" ]} ∧
  correctAnnotations (Some {[ "env" := "prod" ]})
    (Some {[ "env" := "prod"; "team" := "sec" ]}) = true.
Proof.
  assert (({[ "env" := "prod" ]} : gmap string string) ⊆
            {[ "env" := "prod"; "team" := "sec" ]}) as Hsub.
  { apply map_subseteq_spec. intros k v [<- <-]%lookup_singleton_Some.
    reflexivity. }
  split; [exact Hsub|].
  apply (correctAnnotations_superset {[ "env" := "prod" ]}
           {[ "env" := "prod"; "team" := "sec" ]}); exact Hsub.
Defined.

Lemma correctAnnotations_one_mismatch_witness :
  index (Some {[ "env" := "prod"; "team" := "sec" ]}) "env" ≠ "test" ∧
  correctAnnotations (Some (<["env" := "test"]> {[ "team" := "sec" ]}))
    (Some {[ "env" := "prod"; "team" := "sec" ]}) = false.
Proof.
  assert (index (Some {[ "env" := "prod"; "team" := "sec" ]}) "env" ≠ "test")
    as Hne by (vm_compute; discriminate).
  split; [exact Hne|].
  apply (correctAnnotations_one_mismatch {[ "team" := "sec" ]}
           (Some {[ "env" := "prod"; "team" := "sec" ]}) "env" "test").
  exact Hne.
Defined.

Lemma LoadPublicKey_file_errors_witness :
  os_IsNotExist (os_Stat (Platform := Workstation.platform) "private.pem") =
    false ∧
  ioutil_ReadFile (Platform := Workstation.platform) "private.pem" =
    inl (list_byte_of_string "SeK") ∧
  ((pem_Decode (Platform := Workstation.platform)
      (list_byte_of_string "SeK") = None →
    outcome (LoadPublicKey (platform := Workstation.platform) "private.pem") =
      inr "pem.Decode failed") ∧
   (∀ p, pem_Decode (Platform := Workstation.platform)
           (list_byte_of_string "SeK") = Some p →
         Block_Type p ≠ "PUBLIC KEY" →
         outcome (LoadPublicKey (platform := Workstation.platform)
                    "private.pem") =
           inr ("not public: " +:+
                Quote (Platform := Workstation.platform) (Block_Type p))) ∧
   (∀ p, pem_Decode (Platform := Workstation.platform)
           (list_byte_of_string "SeK") = Some p →
         Block_Type p = "PUBLIC KEY" →
         ParsePKIXPublicKey (Platform := Workstation.platform)
           (Block_Bytes p) = inl OtherPublicKey →
         outcome (LoadPublicKey (platform := Workstation.platform)
                    "private.pem") = inr "invalid public key")).
Proof.
  split; [reflexivity|]. split; [reflexivity|].
  apply (LoadPublicKey_file_errors (platform := Workstation.platform)
           "private.pem" (list_byte_of_string "SeK")); reflexivity.
Defined.

(** The key files of the concrete platform: a public ed25519 key, a private
    key block, a public key of another kind, a file that is no PEM file, a
    key given as base64 text, and a file that cannot be examined. *)
Example LoadPublicKey_on_files :
  outcome (LoadPublicKey (platform := Workstation.platform) "cosign.pub") =
    inl (list_byte_of_string "K") ∧
  outcome (LoadPublicKey (platform := Workstation.platform) "private.pem") =
    inr ("not public: " +:+ Workstation.quote "PRIVATE KEY") ∧
  outcome (LoadPublicKey (platform := Workstation.platform) "rsa.pub") =
    inr "invalid public key" ∧
  outcome (LoadPublicKey (platform := Workstation.platform) "note.txt") =
    inr "pem.Decode failed" ∧
  LoadPublicKey (platform := Workstation.platform) "=eK" =
    ([Stat "=eK"], inl (list_byte_of_string "K")) ∧
  effects (LoadPublicKey (platform := Workstation.platform) "locked") =
    [Stat "locked"; ReadFile "locked"].
Proof. split_and!; reflexivity. Qed.

Lemma LoadPublicKey_of_LoadPublicKeyFromPrivKey_witness :
  (∀ bytes,
     pem_Decode (Platform := Workstation.platform)
       (pem_EncodeToMemory (Platform := Workstation.platform)
          {| Block_Type := "PUBLIC KEY"; Block_Bytes := bytes |}) =
       Some {| Block_Type := "PUBLIC KEY"; Block_Bytes := bytes |}) ∧
  (∀ pub der,
     MarshalPKIXPublicKey (Platform := Workstation.platform) pub = inl der →
     ParsePKIXPublicKey (Platform := Workstation.platform) der = inl pub) ∧
  LoadPublicKeyFromPrivKey (platform := Workstation.platform)
    (list_byte_of_string "K") = inl (list_byte_of_string "PeK") ∧
  os_IsNotExist (os_Stat (Platform := Workstation.platform) "cosign.pub") =
    false ∧
  ioutil_ReadFile (Platform := Workstation.platform) "cosign.pub" =
    inl (list_byte_of_string "PeK") ∧
  outcome (LoadPublicKey (platform := Workstation.platform) "cosign.pub") =
    inl (ed25519_Public (Platform := Workstation.platform)
           (list_byte_of_string "K")).
Proof.
  assert (∀ bytes,
            pem_Decode (Platform := Workstation.platform)
              (pem_EncodeToMemory (Platform := Workstation.platform)
                 {| Block_Type := "PUBLIC KEY"; Block_Bytes := bytes |}) =
              Some {| Block_Type := "PUBLIC KEY"; Block_Bytes := bytes |})
    as Hpem by (intros bytes; reflexivity).
  assert (∀ pub der,
            MarshalPKIXPublicKey (Platform := Workstation.platform) pub =
              inl der →
            ParsePKIXPublicKey (Platform := Workstation.platform) der =
              inl pub) as Hpkix.
  { intros [key|] der; cbn; intros [= <-]. reflexivity. }
  split; [exact Hpem|]. split; [exact Hpkix|].
  split; [reflexivity|]. split; [reflexivity|]. split; [reflexivity|].
  apply (LoadPublicKey_of_LoadPublicKeyFromPrivKey
           (platform := Workstation.platform) (list_byte_of_string "K")
           "cosign.pub" (list_byte_of_string "PeK"));
    [exact Hpem | exact Hpkix | reflexivity..].
Defined.

Lemma UploadCmd_empty_signature_witness :
  outcome (signatureBytes (platform := Workstation.platform) "") = inl [] ∧
  UploadCmd (platform := Workstation.platform) "" "payload.json"
    "registry/image" =
    (effects (signatureBytes (platform := Workstation.platform) ""),
     inr "empty signature").
Proof.
  split; [reflexivity|].
  apply (UploadCmd_empty_signature (platform := Workstation.platform) ""
           "payload.json" "registry/image").
  reflexivity.
Defined.

(** An empty argument that names no file, and an empty file: the one effect
    is the look at the file system, then the read. *)
Example UploadCmd_empty_signatures :
  UploadCmd (platform := Workstation.platform) "" "" "registry/image" =
    ([Stat ""], inr "empty signature") ∧
  UploadCmd (platform := Workstation.platform) "empty" "" "registry/image" =
    ([Stat "empty"; ReadFile "empty"], inr "empty signature").
Proof. split; reflexivity. Qed.

Lemma UploadCmd_upload_arguments_witness :
  UploadSignature (platform := Workstation.platform)
    (list_byte_of_string "Kblob") (list_byte_of_string "-sha256:abc")
    "application/vnd.dev.cosign.simplesigning.v1+json"
    "registry/image:sha256-abc.cosign" ∈
    effects (UploadCmd (platform := Workstation.platform) "sig.b64"
               "payload.json" "registry/image") ∧
  ∃ b64SigBytes ref get,
    outcome (signatureBytes (platform := Workstation.platform) "sig.b64") =
      inl b64SigBytes ∧
    b64SigBytes ≠ [] ∧
    DecodeString (Collaborators := Workstation.env)
      (string_of_list_byte b64SigBytes) = inl (list_byte_of_string "Kblob") ∧
    ParseReference (Platform := Workstation.platform) "registry/image" =
      inl ref ∧
    remote_Get (Platform := Workstation.platform) ref = inl get ∧
    "registry/image:sha256-abc.cosign" =
      Context_Tag (Platform := Workstation.platform) ref
        (cosign_Munge (Platform := Workstation.platform) get) ∧
    (if decide ("payload.json" = "") then
       cosign_Payload (Platform := Workstation.platform) get =
         inl (list_byte_of_string "-sha256:abc",
              "application/vnd.dev.cosign.simplesigning.v1+json")
     else
       ioutil_ReadFile (Platform := Workstation.platform) "payload.json" =
         inl (list_byte_of_string "-sha256:abc") ∧
       "application/vnd.dev.cosign.simplesigning.v1+json" =
         "application/vnd.dev.cosign.simplesigning.v1+json").
Proof.
  assert (UploadSignature (platform := Workstation.platform)
            (list_byte_of_string "Kblob") (list_byte_of_string "-sha256:abc")
            "application/vnd.dev.cosign.simplesigning.v1+json"
            "registry/image:sha256-abc.cosign" ∈
            effects (UploadCmd (platform := Workstation.platform) "sig.b64"
                       "payload.json" "registry/image")) as Hup.
  { do 4 right. left. }
  split; [exact Hup|].
  apply (UploadCmd_upload_arguments (platform := Workstation.platform)
           "sig.b64" "payload.json" "registry/image").
  exact Hup.
Defined.

Lemma UploadCmd_success_witness :
  outcome (UploadCmd (platform := Workstation.platform) "-" ""
             "registry/image") = inl () ∧
  ∃ before signature payload mt dstTag,
    effects (UploadCmd (platform := Workstation.platform) "-" ""
               "registry/image") =
      before ++ [UploadSignature signature payload mt dstTag] ∧
    cosign_Upload (Platform := Workstation.platform) signature payload mt
      dstTag = None ∧
    ∀ signature' payload' mt' dstTag',
      UploadSignature signature' payload' mt' dstTag' ∉ before.
Proof.
  split; [reflexivity|].
  apply (UploadCmd_success (platform := Workstation.platform) "-" ""
           "registry/image").
  reflexivity.
Defined.

Lemma UploadCmd_corrupt_signature_witness :
  outcome (signatureBytes (platform := Workstation.platform) "bad.b64") =
    inl (list_byte_of_string "Kblob") ∧
  DecodeString (Collaborators := Workstation.env)
    (string_of_list_byte (list_byte_of_string "Kblob")) = inr 0 ∧
  (outcome (UploadCmd (platform := Workstation.platform) "bad.b64" ""
              "registry/image") ≠ inl () ∧
   (∀ signature payload mt dstTag,
      UploadSignature signature payload mt dstTag ∉
        effects (UploadCmd (platform := Workstation.platform) "bad.b64" ""
                   "registry/image")) ∧
   (∀ ref get,
      list_byte_of_string "Kblob" ≠ [] →
      ParseReference (Platform := Workstation.platform) "registry/image" =
        inl ref →
      remote_Get (Platform := Workstation.platform) ref = inl get →
      (if decide ("" = "") then
         ∃ payload mt,
           cosign_Payload (Platform := Workstation.platform) get =
             inl (payload, mt)
       else ∃ payload,
           ioutil_ReadFile (Platform := Workstation.platform) "" =
             inl payload) →
      outcome (UploadCmd (platform := Workstation.platform) "bad.b64" ""
                 "registry/image") =
        inr (base64.CorruptInputError_Error 0) ∧
      RemoteGet ref ∈
        effects (UploadCmd (platform := Workstation.platform) "bad.b64" ""
                   "registry/image"))).
Proof.
  split; [reflexivity|]. split; [reflexivity|].
  apply (UploadCmd_corrupt_signature (platform := Workstation.platform)
           "bad.b64" "" "registry/image" (list_byte_of_string "Kblob") 0);
    reflexivity.
Defined.

(** The signature in [bad.b64] is rejected after the registry was asked for
    the image. *)
Example UploadCmd_bad_signature :
  UploadCmd (platform := Workstation.platform) "bad.b64" "" "registry/image" =
    ([Stat "bad.b64"; ReadFile "bad.b64";
      RemoteGet (platform := Workstation.platform) "registry/image"],
     inr "illegal base64 data at input byte 0").
Proof. reflexivity. Qed.

Lemma SignBlobCmd_signature_verifies_witness :
  (∀ src, DecodeString (Collaborators := Workstation.env)
            (EncodeToString (Platform := Workstation.platform) src) =
            inl src) ∧
  (∀ pk message,
     ed25519_Verify (Collaborators := Workstation.env)
       (ed25519_Public (Platform := Workstation.platform) pk) message
       (ed25519_Sign (Platform := Workstation.platform) pk message) = true) ∧
  outcome (SignBlobCmd (platform := Workstation.platform) "cosign.key" "blob"
             true Workstation.types_secret) = inl () ∧
  ∃ before payload pass kb pk line,
    (if decide ("blob" = "-") then
       ioutil_ReadAll_Stdin (Platform := Workstation.platform)
     else ioutil_ReadFile (Platform := Workstation.platform) "blob") =
      inl payload ∧
    Workstation.types_secret false = inl pass ∧
    ioutil_ReadFile (Platform := Workstation.platform) "cosign.key" =
      inl kb ∧
    cosign_LoadPrivateKey (Platform := Workstation.platform) kb pass =
      inl pk ∧
    effects (SignBlobCmd (platform := Workstation.platform) "cosign.key"
               "blob" true Workstation.types_secret) =
      before ++ [WriteStdout (list_byte_of_string (line +:+ LF))] ∧
    VerifySignature (env := Workstation.env)
      (ed25519_Public (Platform := Workstation.platform) pk) line payload =
      None.
Proof.
  assert (∀ src, DecodeString (Collaborators := Workstation.env)
                   (EncodeToString (Platform := Workstation.platform) src) =
                   inl src) as Hb64.
  { intros src. cbn. unfold Workstation.encode. cbn.
    by rewrite list_byte_of_string_of_list_byte. }
  assert (∀ pk message,
            ed25519_Verify (Collaborators := Workstation.env)
              (ed25519_Public (Platform := Workstation.platform) pk) message
              (ed25519_Sign (Platform := Workstation.platform) pk message) =
              true) as Hed.
  { intros pk message. cbn. unfold Scenario.verify.
    by apply bool_decide_eq_true. }
  split; [exact Hb64|]. split; [exact Hed|]. split; [reflexivity|].
  apply (SignBlobCmd_signature_verifies (platform := Workstation.platform)
           "cosign.key" "blob" Workstation.types_secret);
    [exact Hb64 | exact Hed | reflexivity].
Defined.

(** Signing a file, signing standard input raw, and a prompt that is given
    up. *)
Example SignBlobCmd_runs :
  SignBlobCmd (platform := Workstation.platform) "cosign.key" "blob" true
    Workstation.types_secret =
    ([WriteStderr ("Using payload from: blob" +:+ LF); ReadFile "blob";
      AskPass false; ReadFile "cosign.key";
      WriteStdout (list_byte_of_string ("=Kblob" +:+ LF))], inl ()) ∧
  SignBlobCmd (platform := Workstation.platform) "cosign.key" "-" false
    Workstation.types_secret =
    ([ReadStdin; AskPass false; ReadFile "cosign.key";
      WriteStdout (list_byte_of_string "K=Kstdin")], inl ()) ∧
  SignBlobCmd (platform := Workstation.platform) "cosign.key" "missing" true
    Workstation.types_secret =
    ([WriteStderr ("Using payload from: missing" +:+ LF);
      ReadFile "missing"],
     inr "open missing: no such file or directory") ∧
  SignBlobCmd (platform := Workstation.platform) "cosign.key" "blob" true
    Workstation.gives_up =
    ([WriteStderr ("Using payload from: blob" +:+ LF); ReadFile "blob";
      AskPass false], inr "interrupted").
Proof. split_and!; reflexivity. Qed.

Lemma correctAnnotations_any_order_witness :
  [("team", "sec"); ("env", "prod")] ≡ₚ
    range (Some {[ "env" := "prod"; "team" := "sec" ]}) ∧
  correctAnnotations_range [("team", "sec"); ("env", "prod")]
    (Some {[ "env" := "prod" ]}) =
  correctAnnotations (Some {[ "env" := "prod"; "team" := "sec" ]})
    (Some {[ "env" := "prod" ]}).
Proof.
  assert ([("team", "sec"); ("env", "prod")] ≡ₚ
            range (Some {[ "env" := "prod"; "team" := "sec" ]})) as Hperm.
  { vm_compute. first [reflexivity | apply Permutation_swap]. }
  split; [exact Hperm|].
  apply (correctAnnotations_any_order
           (Some {[ "env" := "prod"; "team" := "sec" ]})
           (Some {[ "env" := "prod" ]})
           [("team", "sec"); ("env", "prod")]).
  exact Hperm.
Defined.
